(** * rag-fin-study-gk: the front-end API client, the application state
      reducer, the page submit handlers, and the term standardization
      engine of the specification

    The JavaScript sources are embedded shallowly: JavaScript values are an
    inductive type, objects are finite maps from property names to values,
    strings are sequences of UTF-16 code units, numbers are IEEE-754
    binary64 values, and every function that dispatches an action, shows a
    toast or sends a request returns the trace of what it did next to its
    result.  Console logging has no influence on any result and is left
    out. *)

From Stdlib Require Import ZArith NArith QArith Lqa List String Ascii DecimalString.
From Stdlib Require Import Floats.SpecFloat.
From stdpp Require Import gmap list sorting.

Set Warnings "-register-all".
Local Open Scope N_scope.

(** ** JavaScript strings *)

(** A JavaScript string is a sequence of UTF-16 code units. *)
Definition jsstring := list N.

Definition bytes_of_string (s : string) : list N :=
  map (fun a => N_of_ascii a) (list_ascii_of_string s).

(** Source literals are written in UTF-8; [utf16_of_bytes] decodes them to
    the code units the JavaScript engine holds. *)
Fixpoint utf16_of_bytes (bs : list N) : jsstring :=
  match bs with
  | [] => []
  | b :: rest =>
    if b <? 128 then b :: utf16_of_bytes rest
    else if b <? 224 then
      match rest with
      | c :: rest1 => ((b mod 32) * 64 + c mod 64) :: utf16_of_bytes rest1
      | [] => [65533]
      end
    else if b <? 240 then
      match rest with
      | c :: d :: rest2 =>
        ((b mod 16) * 4096 + (c mod 64) * 64 + d mod 64) :: utf16_of_bytes rest2
      | _ => [65533]
      end
    else
      match rest with
      | c :: d :: e :: rest3 =>
        let cp := (b mod 8) * 262144 + (c mod 64) * 4096 + (d mod 64) * 64 + e mod 64 in
        (55296 + (cp - 65536) / 1024) :: (56320 + (cp - 65536) mod 1024)
          :: utf16_of_bytes rest3
      | _ => [65533]
      end
  end.

Definition u (s : string) : jsstring := utf16_of_bytes (bytes_of_string s).

(** ECMAScript WhiteSpace and LineTerminator code points: what
    [String.prototype.trim] strips. *)
Definition is_whitespace (c : N) : bool :=
  (c =? 9) || (c =? 10) || (c =? 11) || (c =? 12) || (c =? 13) || (c =? 32)
  || (c =? 160) || (c =? 5760) || ((8192 <=? c) && (c <=? 8202))
  || (c =? 8232) || (c =? 8233) || (c =? 8239) || (c =? 8287)
  || (c =? 12288) || (c =? 65279).

Fixpoint trimStart (s : jsstring) : jsstring :=
  match s with
  | [] => []
  | c :: rest => if is_whitespace c then trimStart rest else s
  end.

Definition trimEnd (s : jsstring) : jsstring := rev (trimStart (rev s)).

Definition trim (s : jsstring) : jsstring := trimEnd (trimStart s).

(** Decimal rendering of an array index as a property name. *)
Definition index_key (i : nat) : jsstring :=
  bytes_of_string (NilEmpty.string_of_uint (Nat.to_uint i)).

(** ** JavaScript values *)

Inductive value :=
| VUndefined
| VNull
| VBool (b : bool)
| VNum (f : spec_float)
| VStr (s : jsstring)
| VObj (m : gmap jsstring value).

Abbreviation obj := (gmap jsstring value).

(** Number literals: the binary64 value nearest to [m * 2^e]. *)
Definition num (m e : Z) : spec_float := binary_normalize 53 1024 m e false.

Definition num_of_nat (n : nat) : value := VNum (num (Z.of_nat n) 0).

(** 0.7, 0.9 and 2000 as binary64 values. *)
Definition n0_7 : spec_float := S754_finite false 6305039478318694 (-53).
Definition n0_9 : spec_float := S754_finite false 8106479329266893 (-53).
Definition n2000 : spec_float := Eval vm_compute in num 2000 0.
Definition n0 : spec_float := S754_zero false.

(** ToBoolean: undefined, null, false, +0, -0, NaN and the empty string are
    falsy, everything else is truthy. *)
Definition truthy (v : value) : bool :=
  match v with
  | VUndefined | VNull => false
  | VBool b => b
  | VNum (S754_zero _) | VNum S754_nan => false
  | VNum _ => true
  | VStr [] => false
  | VStr _ => true
  | VObj _ => true
  end.

(** [a || b] *)
Definition js_or (a b : value) : value := if truthy a then a else b.

(** The own enumerable properties of a value, as the spread [{...v}] copies
    them: those of an object, the indexed characters of a string, none for
    the other primitives. *)
Definition string_props (s : jsstring) : obj :=
  list_to_map (imap (fun i c => (index_key i, VStr [c])) s).

Definition own_props (v : value) : obj :=
  match v with
  | VObj m => m
  | VStr s => string_props s
  | _ => ∅
  end.

(** Property read [v.k] on a value that is neither undefined nor null, for
    property names that the built-in prototypes do not define (every name
    the program reads is such a name); a missing property reads as
    undefined. *)
Definition prop (v : value) (k : jsstring) : value :=
  match v with
  | VStr s =>
    if decide (k = u "length") then num_of_nat (length s)
    else default VUndefined (string_props s !! k)
  | _ => default VUndefined (own_props v !! k)
  end.

Definition nullish (v : value) : bool :=
  match v with VUndefined | VNull => true | _ => false end.

Ltac keys_differ :=
  let H := fresh in intros H; vm_compute in H; discriminate H.

(** ** config/api.js *)

Record retry_config := {
  maxRetries : N;
  retryDelay : N;
  retryableStatusCodes : list N
}.

Record endpoint_table := {
  ner : jsstring; std : jsstring; abbr : jsstring; corr : jsstring; gen : jsstring
}.

Record api_config := {
  cfg_baseURL : value;
  cfg_prefix : jsstring;
  cfg_timeout : N;
  cfg_headers : obj;
  retry : retry_config;
  models_defaultLLM : jsstring;
  models_defaultEmbedding : jsstring;
  endpoints : endpoint_table;
  errorMessages : obj
}.

(** [API_CONFIG]; the argument is [process.env.REACT_APP_API_BASE_URL],
    undefined when the variable is not set. *)
Definition API_CONFIG (REACT_APP_API_BASE_URL : value) : api_config := {|
  cfg_baseURL := js_or REACT_APP_API_BASE_URL (VStr (u "http://localhost:8000"));
  cfg_prefix := u "/api";
  cfg_timeout := 30000;
  cfg_headers :=
    <[u "Accept" := VStr (u "application/json")]>
      (<[u "Content-Type" := VStr (u "application/json")]> ∅);
  retry := {| maxRetries := 3; retryDelay := 1000;
              retryableStatusCodes := [408; 429; 500; 502; 503; 504] |};
  models_defaultLLM := u "glm-4-plus";
  models_defaultEmbedding := u "embedding-3";
  endpoints := {| ner := u "/api/ner"; std := u "/api/std"; abbr := u "/api/abbr";
                  corr := u "/api/corr"; gen := u "/api/gen" |};
  errorMessages :=
    <[u "unknownError" := VStr (u "发生未知错误，请稍后重试")]>
      (<[u "serverError" := VStr (u "服务器错误，请稍后重试")]>
        (<[u "timeout" := VStr (u "请求超时，请稍后重试")]>
          (<[u "networkError" := VStr (u "网络连接失败，请检查网络设置")]> ∅)))
|}.

(** ** context/AppContext.js *)

Record app_state := {
  modelOptions : obj;
  loading : value;
  error : value
}.

Definition initialState : app_state := {|
  modelOptions :=
    <[u "dbName" := VStr (u "financial_terms_zhipu")]>
      (<[u "embeddingModel" := VStr (u "embedding-3")]>
        (<[u "model" := VStr (u "glm-4-plus")]> ∅));
  loading := VBool false;
  error := VNull
|}.

Record action := { type : value; payload : value }.

Definition SET_MODEL_OPTIONS : jsstring := u "SET_MODEL_OPTIONS".
Definition SET_LOADING : jsstring := u "SET_LOADING".
Definition SET_ERROR : jsstring := u "SET_ERROR".
Definition CLEAR_ERROR : jsstring := u "CLEAR_ERROR".

(** The object spread [{...a, ...b}]: the properties of [b] override those
    of [a]. *)
Definition spread2 (a : obj) (b : value) : obj := own_props b ∪ a.

(** The [switch] compares [action.type] with the four action names by strict
    equality: a type that is not a string matches none of them. *)
Definition reducer (state : app_state) (a : action) : app_state :=
  match type a with
  | VStr t =>
    if decide (t = SET_MODEL_OPTIONS) then
      {| modelOptions := spread2 (modelOptions state) (payload a);
         loading := loading state; error := error state |}
    else if decide (t = SET_LOADING) then
      {| modelOptions := modelOptions state;
         loading := payload a; error := error state |}
    else if decide (t = SET_ERROR) then
      {| modelOptions := modelOptions state;
         loading := loading state; error := payload a |}
    else if decide (t = CLEAR_ERROR) then
      {| modelOptions := modelOptions state;
         loading := loading state; error := VNull |}
    else state
  | _ => state
  end.

(** The dispatching functions [AppProvider] hands out. *)
Definition setModelOptions (options : value) : action :=
  {| type := VStr SET_MODEL_OPTIONS; payload := options |}.
Definition setLoading (l : value) : action :=
  {| type := VStr SET_LOADING; payload := l |}.
Definition setError (e : value) : action :=
  {| type := VStr SET_ERROR; payload := e |}.
Definition clearError : action :=
  {| type := VStr CLEAR_ERROR; payload := VUndefined |}.

(** ** components/panels/ModelOptionsPanel.js *)

(** [handleChange]: the change event of an input carries the input's [name]
    and its current [value]; the handler dispatches [{[name]: value}]. *)
Definition handleChange (name value_ : jsstring) : action :=
  setModelOptions (VObj (<[name := VStr value_]> ∅)).

(** The [name] attributes of the three inputs the panel renders. *)
Definition panel_input_names : list jsstring :=
  [u "model"; u "embeddingModel"; u "dbName"].

(** The option names of [initialState.modelOptions]. *)
Definition recognized_options : gset jsstring :=
  {[ u "model"; u "embeddingModel"; u "dbName" ]}.

(** The action names the reducer knows. *)
Definition known_type (t : value) : bool :=
  match t with
  | VStr s => bool_decide (s ∈ [SET_MODEL_OPTIONS; SET_LOADING; SET_ERROR; CLEAR_ERROR])
  | _ => false
  end.

(** ** api/client.js *)

(** The request configuration axios hands to the interceptors and to its
    adapter. *)
Record config := {
  baseURL : value;
  timeout : N;
  headers : obj;
  method : jsstring;
  url : jsstring;
  data : value
}.

Record response := {
  resp_status : N;
  resp_data : value;
  resp_config : config
}.

(** The error axios rejects with: [error.response] is present when the
    server answered with a status outside 2xx, [error.request] when the
    request was sent. *)
Record axios_error := {
  err_response : option response;
  err_request : bool;
  err_message : jsstring
}.

(** What a promise is rejected with: [new Error(arg)] or an axios error
    passed through. *)
Inductive thrown :=
| Error (arg : value)
| AxiosError (e : axios_error).

Inductive promise (A : Type) :=
| Resolved (a : A)
| Rejected (e : thrown).
Arguments Resolved {A} a.
Arguments Rejected {A} e.

(** [client = axios.create({baseURL, timeout, headers})]: the defaults every
    request of the instance starts from. *)
Record instance := {
  defaults_baseURL : value;
  defaults_timeout : N;
  defaults_headers : obj
}.

Definition client (env : value) : instance := {|
  defaults_baseURL := cfg_baseURL (API_CONFIG env);
  defaults_timeout := cfg_timeout (API_CONFIG env);
  defaults_headers := cfg_headers (API_CONFIG env)
|}.

(** The object literal [{...config.data, model_name: .. || .., ...}] of the
    request interceptor. *)
Definition withModelDefaults (env : value) (d : value) : obj :=
  <[u "max_tokens" := js_or (prop d (u "max_tokens")) (VNum n2000)]>
    (<[u "top_p" := js_or (prop d (u "top_p")) (VNum n0_9)]>
      (<[u "temperature" := js_or (prop d (u "temperature")) (VNum n0_7)]>
        (<[u "model_name" :=
             js_or (prop d (u "model_name"))
                   (VStr (models_defaultLLM (API_CONFIG env)))]>
          (own_props d)))).

(** Request interceptor, fulfilled handler. *)
Definition requestInterceptor (env : value) (c : config) : config :=
  if truthy (data c) then
    {| baseURL := baseURL c; timeout := timeout c; headers := headers c;
       method := method c; url := url c;
       data := VObj (withModelDefaults env (data c)) |}
  else c.

(** Request interceptor, rejected handler. *)
Definition requestInterceptorError {A} (e : thrown) : promise A := Rejected e.

(** Response interceptor, fulfilled handler. *)
Definition responseInterceptor (r : response) : promise value :=
  if truthy (resp_data r) && truthy (prop (resp_data r) (u "error")) then
    Rejected (Error (prop (resp_data r) (u "error")))
  else Resolved (resp_data r).

(** The [switch] on [error.response.status]. *)
Definition statusMessage (env : value) (status : N) : value :=
  let messages := VObj (errorMessages (API_CONFIG env)) in
  if status =? 400 then
    js_or (prop messages (u "badRequest")) (VStr (u "请求参数错误，请检查输入"))
  else if status =? 401 then
    js_or (prop messages (u "unauthorized")) (VStr (u "未授权，请重新登录"))
  else if status =? 403 then
    js_or (prop messages (u "forbidden")) (VStr (u "拒绝访问，请检查权限"))
  else if status =? 404 then
    js_or (prop messages (u "notFound")) (VStr (u "请求的资源不存在"))
  else if status =? 500 then
    js_or (prop messages (u "serverError")) (VStr (u "服务器内部错误，请稍后重试"))
  else
    js_or (prop messages (u "unknownError")) (VStr (u "未知错误，请稍后重试")).

(** Response interceptor, rejected handler. *)
Definition responseErrorInterceptor (env : value) (e : axios_error) : promise value :=
  match err_response e with
  | Some r => Rejected (Error (statusMessage env (resp_status r)))
  | None =>
    if err_request e then
      Rejected (Error (prop (VObj (errorMessages (API_CONFIG env))) (u "networkError")))
    else Rejected (AxiosError e)
  end.

(** The defaults of the model parameters, by field. *)
Definition model_defaults : list (jsstring * value) :=
  [(u "model_name", VStr (u "glm-4-plus")); (u "temperature", VNum n0_7);
   (u "top_p", VNum n0_9); (u "max_tokens", VNum n2000)].

(** A value carries a truthy [error] field. *)
Definition carries_error (v : value) : bool :=
  truthy v && truthy (prop v (u "error")).

(** *** The axios library, as far as the client relies on it *)

(** What the network does with one request: the server answers after some
    milliseconds, the connection fails after some milliseconds, nothing ever
    comes back, or the request cannot be set up and is never sent. *)
Inductive network :=
| Replies (after status : N) (body : value)
| Fails (after : N)
| Silent
| NotSent (message : jsstring).

(** A promise either settles at some time (milliseconds after the call) or
    stays pending for ever. *)
Inductive settled (A : Type) :=
| SettledAt (t : N) (a : A)
| Pending.
Arguments SettledAt {A} t a.
Arguments Pending {A}.

(** axios' default [validateStatus]. *)
Definition validateStatus (status : N) : bool :=
  (200 <=? status) && (status <? 300).

Definition decimal (n : N) : jsstring :=
  bytes_of_string (NilEmpty.string_of_uint (N.to_uint n)).

(** The adapter: [timeout] is the number of milliseconds before the request
    is aborted, 0 meaning no timeout; a response with a status that
    [validateStatus] refuses becomes an error carrying the response. *)
Definition adapter (c : config) (net : network) : settled (response + axios_error) :=
  let in_time d := (timeout c =? 0) || (d <? timeout c) in
  let aborted :=
    SettledAt (timeout c)
      (inr {| err_response := None; err_request := true;
              err_message := u "timeout of " ++ decimal (timeout c) ++ u "ms exceeded" |}) in
  match net with
  | Replies d st body =>
    if in_time d then
      let r := {| resp_status := st; resp_data := body; resp_config := c |} in
      SettledAt d
        (if validateStatus st then inl r
         else inr {| err_response := Some r; err_request := true;
                     err_message := u "Request failed with status code " ++ decimal st |})
    else aborted
  | Fails d =>
    if in_time d then
      SettledAt d (inr {| err_response := None; err_request := true;
                          err_message := u "Network Error" |})
    else aborted
  | Silent => if timeout c =? 0 then Pending else aborted
  | NotSent msg =>
    SettledAt 0 (inr {| err_response := None; err_request := false;
                        err_message := msg |})
  end.

(** The outcome of one call of the client: the requests handed to the
    adapter, in order, and the promise the caller holds. *)
Record call := {
  sent : list config;
  result : settled (promise value)
}.

(** [instance.request(config)]: the request interceptor, one dispatch through
    the adapter, the response interceptor. *)
Definition request (env : value) (c : config) (net : network) : call :=
  let c1 := requestInterceptor env c in
  {| sent := [c1];
     result :=
       match adapter c1 net with
       | SettledAt t (inl r) => SettledAt t (responseInterceptor r)
       | SettledAt t (inr e) => SettledAt t (responseErrorInterceptor env e)
       | Pending => Pending
       end |}.

(** [client.post(url, data)] *)
Definition post (env : value) (i : instance) (url_ : jsstring) (d : value)
    (net : network) : call :=
  request env
    {| baseURL := defaults_baseURL i; timeout := defaults_timeout i;
       headers := defaults_headers i; method := u "post"; url := url_;
       data := d |} net.

(** The number of times a call sent its request again. *)
Definition retries (c : call) : nat := pred (length (sent c)).

(** The network gives no answer within [limit] milliseconds of a request
    that was sent. *)
Definition unanswered_within (limit : N) (net : network) : bool :=
  match net with
  | Replies d _ _ | Fails d => limit <=? d
  | Silent => true
  | NotSent _ => false
  end.

(** ** api/services.js *)

(** The object literal [{ text, options }]. *)
Definition body_of (text options : value) : value :=
  VObj (<[u "options" := options]> (<[u "text" := text]> ∅)).

Definition nerService_recognize (env text options : value) (net : network) : call :=
  post env (client env) (ner (endpoints (API_CONFIG env))) (body_of text options) net.

Definition stdService_standardize (env text options : value) (net : network) : call :=
  post env (client env) (std (endpoints (API_CONFIG env))) (body_of text options) net.

Definition abbrService_expand (env text options : value) (net : network) : call :=
  post env (client env) (abbr (endpoints (API_CONFIG env))) (body_of text options) net.

Definition corrService_correct (env text options : value) (net : network) : call :=
  post env (client env) (corr (endpoints (API_CONFIG env))) (body_of text options) net.

Definition genService_generate (env text options : value) (net : network) : call :=
  post env (client env) (gen (endpoints (API_CONFIG env))) (body_of text options) net.

Definition services : list (value -> value -> value -> network -> call) :=
  [nerService_recognize; stdService_standardize; abbrService_expand;
   corrService_correct; genService_generate].

(** ** pages/NERPage.js and pages/CorrPage.js *)

(** What [handleSubmit] does, in order: a toast, an action dispatched to the
    application state, the call of the page's API function, the update of the
    page's result and, when the [catch] block itself throws, the error the
    handler's own promise is rejected with. *)
Inductive effect :=
| Toast (title : jsstring) (description : value) (status : jsstring)
        (duration : N) (isClosable : bool)
| Dispatch (a : action)
| ApiCall (input : jsstring) (options : obj)
| SetResult (v : value)
| Throw (e : value).

(** An Error object, as far as the program reads it: its [message]. *)
Definition error_object (message : jsstring) : value :=
  VObj (<[u "message" := VStr message]> ∅).

(** What awaiting the page's API function yields: the value the promise
    resolves to, or the value it rejects with, which is the [error] of the
    [catch] block (any value: an Error object as a rule, but undefined and
    null as well).  The functions themselves ([extractTerms],
    [correctTerms], [generateTerms] of [api/terms]) are not part of the
    sources at hand and are taken as a parameter. *)
Inductive api_result :=
| ApiResolved (response : value)
| ApiRejected (reason : value).

(** The message of the TypeError that reading the property [name] of
    undefined or null raises (V8 wording). *)
Definition typeErrorMessage (v : value) (name : jsstring) : jsstring :=
  u "Cannot read properties of "
  ++ match v with VNull => u "null" | _ => u "undefined" end
  ++ u " (reading '" ++ name ++ u "')".

(** The [catch] block: what it does, and the error it throws when it does
    not get that far.  Reading [error.message] of undefined or null raises a
    TypeError before [setError] and the toast. *)
Definition catchBlock (error_ : value) : list effect * option value :=
  if nullish error_ then
    ([], Some (error_object (typeErrorMessage error_ (u "message"))))
  else
    let message := js_or (prop error_ (u "message")) (VStr (u "处理失败")) in
    ([Dispatch (setError message);
      Toast (u "错误") message (u "error") 3000 true], None).

(** The [try] block from the awaited call on, with the [catch] block behind
    it: reading [response.result] of undefined or null raises a TypeError,
    which the [catch] block gets. *)
Definition tryBlock (r : api_result) : list effect * option value :=
  match r with
  | ApiResolved response =>
    if nullish response then
      catchBlock (error_object (typeErrorMessage response (u "result")))
    else ([SetResult (prop response (u "result"))], None)
  | ApiRejected reason => catchBlock reason
  end.

(** [handleSubmit] of the pages; they differ in the prompt of the
    empty-input toast and in the API function.  The [finally] block runs
    whatever happened before it.  (The handler is modelled as the function it
    is, for whenever it is invoked: as shipped, the JSX of the pages reads an
    identifier [loading] that the components do not bind.) *)
Definition handleSubmit (prompt : jsstring) (api : jsstring -> obj -> api_result)
    (input : jsstring) (options : obj) : list effect :=
  if negb (truthy (VStr (trim input))) then
    [Toast (u "错误") (VStr prompt) (u "error") 3000 true]
  else
    [Dispatch (setLoading (VBool true)); Dispatch clearError; ApiCall input options]
    ++ (tryBlock (api input options)).1
    ++ [Dispatch (setLoading (VBool false))]
    ++ match (tryBlock (api input options)).2 with
       | Some e => [Throw e]
       | None => []
       end.

Definition NERPage_handleSubmit := handleSubmit (u "请输入需要提取术语的文本").
Definition CorrPage_handleSubmit := handleSubmit (u "请输入需要纠错的术语").

Definition is_api_call (e : effect) : bool :=
  match e with ApiCall _ _ => true | _ => false end.

(** The application state after the dispatched actions of a trace. *)
Definition run_effects (s : app_state) (es : list effect) : app_state :=
  foldl (fun st e => match e with Dispatch a => reducer st a | _ => st end) s es.

(** ** The term standardization engine *)

(** The engine, the back-end service behind [/api/std] ([std_service.py],
    with its vector index and metadata store), is not among the sources at
    hand; this module follows sections 3, 4.2, 4.5 and 7 of the
    specification. *)
Module Engine.

(** Modelled from the spec: the closed classification set of section 3 (the
    back-end's category type is missing). *)
Inductive category :=
| COMPANY | STOCK | FUND | BOND | CURRENCY | INDEX | SECTOR | FINANCIAL_TERM.

(** Modelled from the spec: the Term of section 3 (the back-end's terms table
    is missing). *)
Record Term := {
  term_id : N;
  term_name : jsstring;
  term_category : category;
  definition : option jsstring;
  created_at : N
}.

(** Modelled from the spec: the embedding [vector] of section 3 (the
    back-end's vectors are missing).  Scores and vector components are
    rationals; the similarity metric is a parameter of the engine. *)
Definition vector := list Q.

(** Modelled from the spec: the VectorRecord of section 3, a vector and the
    term that owns it. *)
Record VectorRecord := {
  vec : vector;
  owner_term_id : N
}.

(** Modelled from the spec: the VectorIndex, a sequence of slots addressed
    by position, a tombstoned slot holding no record. *)
Definition VectorIndex := list (option VectorRecord).

(** Modelled from the spec: the error taxonomy of section 7 (the back-end's
    error types are missing). *)
Inductive engine_error :=
| EmptyInput
| InvalidCategory
| DimensionMismatch
| EmbeddingUnavailable
| NotFound
| IndexCorruption.

(** Modelled from the spec: the engine's collaborators.  [embed n text] is
    what the embedding provider answers to the call number [n] (None when
    it is unavailable, after its own capped retries); [store] is the
    MetadataStore, keyed by [term_id]. *)
Record engine := {
  similarity : vector -> vector -> Q;
  embed : nat -> jsstring -> option vector;
  index : VectorIndex;
  store : gmap N Term
}.

(** Modelled from the spec: a search hit of section 4.2, the position of the
    slot and its similarity score, with the term that owns the slot. *)
Record hit := {
  position : nat;
  hit_owner : N;
  score : Q
}.

(** Modelled from the spec: a returned candidate [{term, score}] of
    section 4.5. *)
Record candidate := {
  term : Term;
  cand_score : Q
}.

(** Modelled from the spec: the result order of sections 4.2 and 4.5 (the
    back-end's ranking is missing), descending score, ties broken by
    ascending [term_id]. *)
Definition outranks (s1 : Q) (id1 : N) (s2 : Q) (id2 : N) : Prop :=
  (s2 < s1)%Q \/ ((s1 == s2)%Q /\ (id1 <= id2)%N).

Definition hit_before (a b : hit) : Prop :=
  outranks (score a) (hit_owner a) (score b) (hit_owner b).

Definition candidate_before (a b : candidate) : Prop :=
  outranks (cand_score a) (term_id (term a)) (cand_score b) (term_id (term b)).

#[global] Instance Qlt_decision (x y : Q) : Decision (x < y)%Q.
Proof. unfold Qlt. apply _. Defined.
#[global] Instance Qle_decision (x y : Q) : Decision (x <= y)%Q.
Proof. unfold Qle. apply _. Defined.
#[global] Instance Qeq_decision (x y : Q) : Decision (x == y)%Q.
Proof. unfold Qeq. apply _. Defined.
#[global] Instance outranks_decision s1 id1 s2 id2 :
  Decision (outranks s1 id1 s2 id2).
Proof. unfold outranks. apply _. Defined.
#[global] Instance hit_before_decision : RelDecision hit_before.
Proof. intros a b. unfold hit_before. apply _. Defined.
#[global] Instance candidate_before_decision : RelDecision candidate_before.
Proof. intros a b. unfold candidate_before. apply _. Defined.

(** The hits of the active slots, in slot order: tombstoned slots give
    none. *)
Definition active_hits (sim : vector -> vector -> Q) (q : vector)
    (idx : VectorIndex) : list hit :=
  omap id
    (imap (fun i slot =>
             (fun r => {| position := i; hit_owner := owner_term_id r;
                          score := sim q (vec r) |}) <$> slot) idx).

(** Modelled from the spec: [VectorIndex.search(queryVector, k)], up to [k]
    nearest active vectors, tombstoned slots excluded, ties in score broken
    by ascending [term_id]. *)
Definition search (sim : vector -> vector -> Q) (idx : VectorIndex)
    (q : vector) (k : nat) : list hit :=
  take k (merge_sort hit_before (active_hits sim q idx)).

(** Modelled from the spec: "resolve each position's owning term via
    MetadataStore" (section 4.5); a hit whose term the store does not hold
    yields no candidate. *)
Definition resolve (st : gmap N Term) (hits : list hit) : list candidate :=
  omap (fun h => (fun t => {| term := t; cand_score := score h |})
                   <$> st !! hit_owner h) hits.

Definition result := (engine_error + list candidate)%type.

(** Modelled from the spec: [TermStandardizer.standardize(text, topK,
    similarityThreshold)].  [calls] counts the calls made to the embedding
    provider so far. *)
Definition standardize (E : engine) (calls : nat) (text : jsstring)
    (topK : nat) (similarityThreshold : Q) : result * nat :=
  match trim text with
  | [] => (inl EmptyInput, calls)
  | _ =>
    match embed E calls text with
    | None => (inl EmbeddingUnavailable, S calls)
    | Some v =>
      let hits := search (similarity E) (index E) v topK in
      let found := resolve (store E) hits in
      let kept := filter (fun c => (similarityThreshold <= cand_score c)%Q) found in
      (inr (merge_sort candidate_before kept), S calls)
    end
  end.

(** Modelled from the spec: batch mode, one result per input text, in the
    order of the inputs; a failed item is recorded and the loop goes on. *)
Fixpoint standardizeBatch_loop (E : engine) (calls : nat) (texts : list jsstring)
    (topK : nat) (similarityThreshold : Q) (done_ : list result)
    : list result * nat :=
  match texts with
  | [] => (reverse done_, calls)
  | text :: rest =>
    let '(r, calls1) := standardize E calls text topK similarityThreshold in
    standardizeBatch_loop E calls1 rest topK similarityThreshold (r :: done_)
  end.

Definition standardizeBatch (E : engine) (calls : nat) (texts : list jsstring)
    (topK : nat) (similarityThreshold : Q) : list result * nat :=
  standardizeBatch_loop E calls texts topK similarityThreshold [].

(** The scenario vocabulary of section 8: two terms, two unit vectors, the
    dot product as similarity. *)
Definition dot (a b : vector) : Q :=
  foldr Qplus 0%Q (zip_with Qmult a b).

Definition stock_term : Term :=
  {| term_id := 1; term_name := u "股票"; term_category := STOCK;
     definition := None; created_at := 0 |}.
Definition bond_term : Term :=
  {| term_id := 2; term_name := u "债券"; term_category := BOND;
     definition := None; created_at := 0 |}.

Definition demo_embed (n : nat) (text : jsstring) : option vector :=
  if decide (n = 1%nat) then None
  else if decide (text = u "债券") then Some [0; 1]%Q
  else Some [4 # 5; 3 # 5]%Q.

Definition demo : engine :=
  {| similarity := dot;
     embed := demo_embed;
     index := [Some {| vec := [1; 0]%Q; owner_term_id := 1 |}; None;
               Some {| vec := [0; 1]%Q; owner_term_id := 2 |}];
     store := <[2 := bond_term]> (<[1 := stock_term]> ∅) |}.

End Engine.

(** ** pages/GenPage.js *)

(** The generation page has the same [handleSubmit], with its own prompt and
    [generateTerms] as API function. *)
Definition GenPage_handleSubmit := handleSubmit (u "请输入需要生成的术语描述").

Definition is_toast (e : effect) : bool :=
  match e with Toast _ _ _ _ _ => true | _ => false end.

Definition is_set_result (e : effect) : bool :=
  match e with SetResult _ => true | _ => false end.

(** The [catch] block throws: the API promise was rejected with undefined or
    null. *)
Definition catch_throws (r : api_result) : bool :=
  match r with
  | ApiRejected reason => nullish reason
  | ApiResolved _ => false
  end.

(** [!input.trim()] *)
Definition blank (input : jsstring) : bool := negb (truthy (VStr (trim input))).

(** ** The client's error messages and the service table *)

(** The text a response status ends up with: the configured message where
    [API_CONFIG.errorMessages] has the key, the literal of the [switch]
    where it has not. *)
Definition shown_message (status : N) : jsstring :=
  if status =? 400 then u "请求参数错误，请检查输入"
  else if status =? 401 then u "未授权，请重新登录"
  else if status =? 403 then u "拒绝访问，请检查权限"
  else if status =? 404 then u "请求的资源不存在"
  else if status =? 500 then u "服务器错误，请稍后重试"
  else u "发生未知错误，请稍后重试".

(** The five service functions with the endpoint each one posts to. *)
Definition service_endpoints
    : list ((value -> value -> value -> network -> call) * jsstring) :=
  [(nerService_recognize, u "/api/ner"); (stdService_standardize, u "/api/std");
   (abbrService_expand, u "/api/abbr"); (corrService_correct, u "/api/corr");
   (genService_generate, u "/api/gen")].

(** ** components/panels/ModelOptionsPanel.js: what the inputs show *)

(** The [value] attributes of the three inputs, by input name:
    [modelOptions.model], [modelOptions.embeddingModel],
    [modelOptions.dbName]. *)
Definition ModelOptionsPanel_values (modelOptions_ : obj) : list (jsstring * value) :=
  [(u "model", prop (VObj modelOptions_) (u "model"));
   (u "embeddingModel", prop (VObj modelOptions_) (u "embeddingModel"));
   (u "dbName", prop (VObj modelOptions_) (u "dbName"))].

(** ** components/shared/ModelOptions.js *)

(** The [value] attribute of the model input of [LLMOptions]. *)
Definition LLMOptions_model (options : obj) : value :=
  js_or (prop (VObj options) (u "model")) (VStr (u "glm-4-plus")).

(** The [value] attribute of the embedding model input of
    [EmbeddingOptions]: it reads [options.model]. *)
Definition EmbeddingOptions_model (options : obj) : value :=
  js_or (prop (VObj options) (u "model")) (VStr (u "embedding-3")).

(** The [value] attribute of the database input of [EmbeddingOptions]. *)
Definition EmbeddingOptions_dbName (options : obj) : value :=
  js_or (prop (VObj options) (u "dbName")) (VStr (u "financial_terms_zhipu")).

(** ** config/env.js *)

(** [v === 'literal'] *)
Definition strict_equals_string (v : value) (s : jsstring) : bool :=
  match v with
  | VStr t => bool_decide (t = s)
  | _ => false
  end.

Record env_features := {
  ENABLE_DARK_MODE : bool;
  ENABLE_ERROR_BOUNDARY : bool;
  ENABLE_ANALYTICS : bool
}.

Record env_performance := {
  API_TIMEOUT : N;
  API_RETRY_COUNT : N;
  API_RETRY_DELAY : N
}.

Record env_cache := {
  CACHE_ENABLED : bool;
  TTL : N
}.

Record env_logging := {
  LOGGING_ENABLED : bool;
  LEVEL : jsstring
}.

Record env_config := {
  NODE_ENV : value;
  API_BASE_URL : value;
  APP_NAME : jsstring;
  APP_VERSION : jsstring;
  FEATURES : env_features;
  PERFORMANCE : env_performance;
  CACHE : env_cache;
  LOGGING : env_logging
}.

(** [ENV_CONFIG]; the arguments are [process.env.NODE_ENV] and
    [process.env.REACT_APP_API_BASE_URL], undefined when not set. *)
Definition ENV_CONFIG (node_env base_url : value) : env_config := {|
  NODE_ENV := js_or node_env (VStr (u "development"));
  API_BASE_URL := js_or base_url (VStr (u "http://localhost:8000"));
  APP_NAME := u "金融文本处理系统";
  APP_VERSION := u "1.0.0";
  FEATURES := {| ENABLE_DARK_MODE := true; ENABLE_ERROR_BOUNDARY := true;
                 ENABLE_ANALYTICS := false |};
  PERFORMANCE := {| API_TIMEOUT := 30000; API_RETRY_COUNT := 3;
                    API_RETRY_DELAY := 1000 |};
  CACHE := {| CACHE_ENABLED := true; TTL := 3600 |};
  LOGGING :=
    {| LOGGING_ENABLED := strict_equals_string node_env (u "development");
       LEVEL := if strict_equals_string node_env (u "development")
                then u "debug" else u "error" |}
|}.

(** ** components/Sidebar.js *)

(** A navigation entry as [Sidebar] renders it: its icon, its target, its
    label and whether it is drawn as the active one. *)
Record nav_item := {
  nav_icon : jsstring;
  nav_to : jsstring;
  nav_label : jsstring;
  nav_isActive : bool
}.

(** The entries of [Sidebar] at [location.pathname]; [isActive] is
    [location.pathname === to]. *)
Definition Sidebar (pathname : jsstring) : list nav_item :=
  [ {| nav_icon := u "FiHome"; nav_to := u "/"; nav_label := u "首页";
       nav_isActive := bool_decide (pathname = u "/") |};
    {| nav_icon := u "FiTag"; nav_to := u "/ner"; nav_label := u "实体识别";
       nav_isActive := bool_decide (pathname = u "/ner") |};
    {| nav_icon := u "FiFileText"; nav_to := u "/std"; nav_label := u "术语标准化";
       nav_isActive := bool_decide (pathname = u "/std") |};
    {| nav_icon := u "FiType"; nav_to := u "/abbr"; nav_label := u "缩写展开";
       nav_isActive := bool_decide (pathname = u "/abbr") |};
    {| nav_icon := u "FiCheckSquare"; nav_to := u "/corr"; nav_label := u "文本纠错";
       nav_isActive := bool_decide (pathname = u "/corr") |};
    {| nav_icon := u "FiFile"; nav_to := u "/gen"; nav_label := u "文本生成";
       nav_isActive := bool_decide (pathname = u "/gen") |} ].

(** * Properties *)

(** ** The application state reducer *)

Lemma action_names_distinct :
  SET_MODEL_OPTIONS <> SET_LOADING /\ SET_MODEL_OPTIONS <> SET_ERROR /\
  SET_MODEL_OPTIONS <> CLEAR_ERROR /\ SET_LOADING <> SET_ERROR /\
  SET_LOADING <> CLEAR_ERROR /\ SET_ERROR <> CLEAR_ERROR.
Proof. repeat split; keys_differ. Qed.

Lemma reducer_unknown (s : app_state) (a : action) :
  known_type (type a) = false -> reducer s a = s.
Proof.
  unfold known_type, reducer. destruct (type a) as [| |b|f|t|m]; try done.
  intros H. apply bool_decide_eq_false in H.
  repeat case_decide; try done; exfalso; apply H; subst t; set_solver.
Qed.

(** C10: the reducer changes only the field its action targets.  SET_LOADING
    sets [loading] to the payload and leaves [modelOptions] and [error] as
    they were, SET_ERROR sets [error] and leaves [modelOptions] and [loading],
    CLEAR_ERROR resets [error] to null and leaves [modelOptions] and
    [loading], SET_MODEL_OPTIONS leaves [loading] and [error], and an action
    whose type is none of the four names returns the state unchanged. *)
Theorem reducer_frame (s : app_state) (a : action) :
  (type a = VStr SET_LOADING ->
     modelOptions (reducer s a) = modelOptions s /\
     error (reducer s a) = error s /\ loading (reducer s a) = payload a) /\
  (type a = VStr SET_ERROR ->
     modelOptions (reducer s a) = modelOptions s /\
     loading (reducer s a) = loading s /\ error (reducer s a) = payload a) /\
  (type a = VStr CLEAR_ERROR ->
     modelOptions (reducer s a) = modelOptions s /\
     loading (reducer s a) = loading s /\ error (reducer s a) = VNull) /\
  (type a = VStr SET_MODEL_OPTIONS ->
     loading (reducer s a) = loading s /\ error (reducer s a) = error s) /\
  (known_type (type a) = false -> reducer s a = s).
Proof.
  destruct action_names_distinct as (H1 & H2 & H3 & H4 & H5 & H6).
  split; [|split; [|split; [|split]]].
  5: apply reducer_unknown.
  all: intros Ht; unfold reducer; rewrite Ht.
  all: repeat case_decide; simpl; try congruence; auto.
Qed.

Lemma reducer_frame_witness :
  reducer initialState {| type := VStr (u "RESET"); payload := VBool true |}
  = initialState.
Proof.
  apply (reducer_frame initialState
           {| type := VStr (u "RESET"); payload := VBool true |}).
  reflexivity.
Defined.

(** ** The model options *)

Lemma dom_spread2 (a : obj) (b : value) :
  dom (spread2 a b) = dom (own_props b) ∪ dom a.
Proof. unfold spread2. apply dom_union_L. Qed.

Lemma reducer_setModelOptions (s : app_state) (p : value) :
  modelOptions (reducer s (setModelOptions p)) = spread2 (modelOptions s) p.
Proof.
  unfold reducer, setModelOptions. cbn [type payload].
  by rewrite decide_True.
Qed.

Lemma initial_options_dom : dom (modelOptions initialState) = recognized_options.
Proof.
  unfold initialState, recognized_options. cbn [modelOptions].
  rewrite !dom_insert_L, dom_empty_L. set_solver.
Qed.

(** C4, as the code has it: the model options are a dynamic object.  It
    starts with exactly the keys model, embeddingModel and dbName; a
    SET_MODEL_OPTIONS update merges every own property of its payload into
    it, so the keys after the update are the payload's keys together with
    the keys before; an update issued by one of the three inputs of
    ModelOptionsPanel keeps the keys within the three initial ones. *)
Theorem model_options_keys (s : app_state) (p : value) (name v : jsstring) :
  dom (modelOptions initialState) = recognized_options /\
  dom (modelOptions (reducer s (setModelOptions p)))
    = dom (own_props p) ∪ dom (modelOptions s) /\
  (name ∈ panel_input_names ->
   dom (modelOptions s) ⊆ recognized_options ->
   dom (modelOptions (reducer s (handleChange name v))) ⊆ recognized_options).
Proof.
  split; [|split].
  - apply initial_options_dom.
  - by rewrite reducer_setModelOptions, dom_spread2.
  - intros Hname Hs. unfold handleChange.
    rewrite reducer_setModelOptions, dom_spread2. cbn [own_props].
    rewrite dom_insert_L, dom_empty_L.
    assert (name ∈ recognized_options) as Hin.
    { unfold panel_input_names in Hname. unfold recognized_options.
      rewrite !elem_of_cons, elem_of_nil in Hname.
      rewrite !elem_of_union, !elem_of_singleton. tauto. }
    intros k. rewrite !elem_of_union, elem_of_singleton, elem_of_empty.
    intros [[->|[]]|Hk]; auto.
Qed.

Lemma model_options_keys_witness :
  dom (modelOptions (reducer initialState (handleChange (u "dbName") (u "terms_v2"))))
    ⊆ recognized_options.
Proof.
  apply (model_options_keys initialState VUndefined (u "dbName") (u "terms_v2")).
  - unfold panel_input_names. apply list_elem_of_In. simpl. tauto.
  - rewrite initial_options_dom. done.
Defined.

(** C4, as stated, fails: the update [setModelOptions({apiKey: 'x'})] puts the
    key apiKey, which is none of the recognized options, into the state. *)
Lemma update_adds_unrecognized_option :
  let s1 := reducer initialState
              (setModelOptions (VObj (<[u "apiKey" := VStr (u "x")]> ∅))) in
  dom (modelOptions initialState) = recognized_options /\
  modelOptions s1 !! u "apiKey" = Some (VStr (u "x")) /\
  u "apiKey" ∈ dom (modelOptions s1) /\
  u "apiKey" ∉ recognized_options.
Proof.
  cbv zeta. rewrite reducer_setModelOptions.
  assert (spread2 (modelOptions initialState)
            (VObj (<[u "apiKey" := VStr (u "x")]> ∅)) !! u "apiKey"
          = Some (VStr (u "x"))) as Hk.
  { unfold spread2. simpl. apply lookup_union_Some_l. apply lookup_insert_eq. }
  split; [|split; [|split]].
  - apply initial_options_dom.
  - exact Hk.
  - apply elem_of_dom. rewrite Hk. eauto.
  - unfold recognized_options. rewrite !elem_of_union, !elem_of_singleton.
    intros [[H|H]|H]; vm_compute in H; discriminate H.
Qed.

(** ** The request interceptor *)

Ltac lookup_inserts :=
  repeat first [ rewrite lookup_insert_eq
               | rewrite lookup_insert_ne by keys_differ ].

Lemma withModelDefaults_default (env d : value) (k : jsstring) (dflt : value) :
  (k, dflt) ∈ model_defaults ->
  withModelDefaults env d !! k = Some (js_or (prop d k) dflt).
Proof.
  unfold model_defaults. rewrite !elem_of_cons, elem_of_nil.
  intros [H|[H|[H|[H|[]]]]]; injection H as -> ->;
    unfold withModelDefaults; lookup_inserts; reflexivity.
Qed.

Lemma withModelDefaults_other (env d : value) (k : jsstring) :
  k ∉ model_defaults.*1 ->
  withModelDefaults env d !! k = own_props d !! k.
Proof.
  unfold model_defaults. cbn [fmap list_fmap fst].
  rewrite !not_elem_of_cons. intros (H1 & H2 & H3 & H4 & _).
  unfold withModelDefaults. by rewrite !lookup_insert_ne.
Qed.

Lemma requestInterceptor_truthy (env : value) (c : config) :
  truthy (data c) = true ->
  requestInterceptor env c =
    {| baseURL := baseURL c; timeout := timeout c; headers := headers c;
       method := method c; url := url c;
       data := VObj (withModelDefaults env (data c)) |}.
Proof. unfold requestInterceptor. by intros ->. Qed.

Lemma requestInterceptor_falsy (env : value) (c : config) :
  truthy (data c) = false -> requestInterceptor env c = c.
Proof. unfold requestInterceptor. by intros ->. Qed.

(** C9, as the code has it: the guard of the request interceptor is the
    truthiness of the payload.  On a request whose data payload is truthy,
    the interceptor replaces the payload by an object that holds the
    payload's own properties, in which each of model_name, temperature, top_p
    and max_tokens keeps its value when that value is truthy and gets the
    default ('glm-4-plus', 0.7, 0.9, 2000) when it is falsy or missing, every
    other property and every other field of the request staying as it was;
    in particular a supplied 0 for temperature, top_p or max_tokens is
    replaced by the default.  A request whose payload is falsy (undefined,
    null, but also the empty string, 0, NaN and false) passes unchanged.  An
    object payload is always truthy. *)
Theorem request_defaults (env : value) (c : config) :
  (truthy (data c) = true ->
     exists m1 : obj,
       requestInterceptor env c =
         {| baseURL := baseURL c; timeout := timeout c; headers := headers c;
            method := method c; url := url c; data := VObj m1 |} /\
       (forall k dflt, (k, dflt) ∈ model_defaults ->
          m1 !! k = Some (if truthy (prop (data c) k)
                          then prop (data c) k else dflt)) /\
       (forall k dflt, (k, dflt) ∈ model_defaults ->
          k <> u "model_name" -> prop (data c) k = VNum n0 -> m1 !! k = Some dflt) /\
       (forall k, k ∉ model_defaults.*1 -> m1 !! k = own_props (data c) !! k)) /\
  (truthy (data c) = false -> requestInterceptor env c = c) /\
  (forall m : obj, data c = VObj m ->
     truthy (data c) = true /\ own_props (data c) = m /\
     forall k, prop (data c) k = default VUndefined (m !! k)).
Proof.
  split; [|split].
  - intros Ht. exists (withModelDefaults env (data c)). split; [|split; [|split]].
    + by apply requestInterceptor_truthy.
    + intros k dflt Hk. by rewrite (withModelDefaults_default _ _ _ _ Hk).
    + intros k dflt Hk _ H0. rewrite (withModelDefaults_default _ _ _ _ Hk).
      unfold js_or. by rewrite H0.
    + intros k Hk. by rewrite (withModelDefaults_other _ _ _ Hk).
  - apply requestInterceptor_falsy.
  - intros m ->. done.
Qed.

(** A request of the standardization page with temperature 0. *)
Lemma request_defaults_witness :
  exists m1 : obj,
    data (requestInterceptor VUndefined
            {| baseURL := VUndefined; timeout := 30000; headers := ∅;
               method := u "post"; url := u "/api/std";
               data := VObj (<[u "temperature" := VNum n0]>
                               (<[u "text" := VStr (u "股市")]> ∅)) |})
      = VObj m1 /\
    m1 !! u "temperature" = Some (VNum n0_7) /\
    m1 !! u "model_name" = Some (VStr (u "glm-4-plus")) /\
    m1 !! u "text" = Some (VStr (u "股市")).
Proof.
  destruct (proj1 (request_defaults VUndefined
            {| baseURL := VUndefined; timeout := 30000; headers := ∅;
               method := u "post"; url := u "/api/std";
               data := VObj (<[u "temperature" := VNum n0]>
                               (<[u "text" := VStr (u "股市")]> ∅)) |}) eq_refl)
    as (m1 & Heq & Hdef & Hzero & Hother).
  exists m1. split; [by rewrite Heq|]. split; [|split].
  - apply (Hzero _ (VNum n0_7)).
    + unfold model_defaults. apply list_elem_of_In. simpl. tauto.
    + keys_differ.
    + vm_compute. reflexivity.
  - rewrite (Hdef _ (VStr (u "glm-4-plus"))).
    + vm_compute. reflexivity.
    + unfold model_defaults. apply list_elem_of_In. simpl. tauto.
  - rewrite Hother; [cbn [data own_props]; by lookup_inserts|].
    unfold model_defaults. cbn [fmap list_fmap fst].
    rewrite !not_elem_of_cons. repeat split; try keys_differ. apply not_elem_of_nil.
Defined.

(** C9, as stated, fails: the payloads '', 0 and false are not null, and the
    interceptor sends each of them as it is, with no default added. *)
Lemma falsy_payload_gets_no_defaults :
  Forall (fun d =>
            let c := {| baseURL := VUndefined; timeout := 30000; headers := ∅;
                        method := u "post"; url := u "/api/std"; data := d |} in
            nullish d = false /\
            requestInterceptor VUndefined c = c /\
            prop (data (requestInterceptor VUndefined c)) (u "temperature")
              = VUndefined)
         [VStr []; VNum n0; VBool false].
Proof.
  do 3 (apply List.Forall_cons;
        [cbv zeta; (split; [|split]); vm_compute; reflexivity|]).
  apply List.Forall_nil.
Qed.

(** ** The client: one dispatch, the response interceptors *)

Lemma requestInterceptor_timeout (env : value) (c : config) :
  timeout (requestInterceptor env c) = timeout c.
Proof. unfold requestInterceptor. by destruct (truthy (data c)). Qed.

Lemma in_time_true (limit d : N) :
  limit = 0 \/ d < limit -> (limit =? 0) || (d <? limit) = true.
Proof.
  intros [->| H]; [done|].
  apply orb_true_iff. right. by apply N.ltb_lt.
Qed.

Lemma responseInterceptor_spec (r : response) :
  responseInterceptor r =
    if carries_error (resp_data r)
    then Rejected (Error (prop (resp_data r) (u "error")))
    else Resolved (resp_data r).
Proof. reflexivity. Qed.

Lemma request_reply (env : value) (c : config) (d st : N) (body : value) :
  timeout c = 0 \/ d < timeout c ->
  result (request env c (Replies d st body)) =
    SettledAt d
      (if validateStatus st
       then responseInterceptor
              {| resp_status := st; resp_data := body;
                 resp_config := requestInterceptor env c |}
       else Rejected (Error (statusMessage env st))).
Proof.
  intros Ht. unfold request, adapter. cbn [result].
  rewrite requestInterceptor_timeout, (in_time_true _ _ Ht).
  by destruct (validateStatus st).
Qed.

Lemma request_resolved (env : value) (c : config) (net : network) (t : N) (v : value) :
  result (request env c net) = SettledAt t (Resolved v) -> carries_error v = false.
Proof.
  unfold request. cbn [result].
  destruct (adapter (requestInterceptor env c) net) as [t1 [r|e]|] eqn:Ha; [| |done].
  - rewrite responseInterceptor_spec.
    destruct (carries_error (resp_data r)) eqn:Hc; [done|].
    intros [= _ <-]. exact Hc.
  - unfold responseErrorInterceptor.
    destruct (err_response e); [done|]. by destruct (err_request e).
Qed.

(** C8, as the code has it: the response interceptor, which gets the
    responses with a success status, rejects with the body's [error] field
    when the body carries a truthy one and resolves to the body itself
    otherwise.  So when a response arrives in time: with a status from 200 to
    299 the promise of the call rejects with that error or resolves to the
    bare body; with any other status it rejects with the message the client
    has for that status, whatever the body holds.  No call of the client ever
    resolves to a value carrying a truthy [error] field. *)
Theorem response_body_error (env : value) (c : config) (d st : N) (body : value) :
  timeout c = 0 \/ d < timeout c ->
  (forall r : response,
     responseInterceptor r =
       if carries_error (resp_data r)
       then Rejected (Error (prop (resp_data r) (u "error")))
       else Resolved (resp_data r)) /\
  result (request env c (Replies d st body)) =
    SettledAt d
      (if validateStatus st then
         if carries_error body then Rejected (Error (prop body (u "error")))
         else Resolved body
       else Rejected (Error (statusMessage env st))) /\
  (forall net t v,
     result (request env c net) = SettledAt t (Resolved v) -> carries_error v = false).
Proof.
  intros Ht. split; [apply responseInterceptor_spec|]. split.
  - rewrite (request_reply _ _ _ _ _ Ht).
    destruct (validateStatus st); [|done]. by rewrite responseInterceptor_spec.
  - apply request_resolved.
Qed.

(** A 200 response whose body is [{error: 'index not loaded'}]. *)
Lemma response_body_error_witness :
  result (stdService_standardize VUndefined (VStr (u "股市")) VUndefined
            (Replies 120 200 (VObj (<[u "error" := VStr (u "index not loaded")]> ∅))))
  = SettledAt 120 (Rejected (Error (VStr (u "index not loaded")))).
Proof.
  refine (eq_trans (proj1 (proj2 (response_body_error VUndefined _ 120 200
            (VObj (<[u "error" := VStr (u "index not loaded")]> ∅)) _))) _).
  - right. reflexivity.
  - vm_compute. reflexivity.
Defined.

(** C8, as stated, fails for the responses with a status outside 2xx: a 404
    whose body has no [error] field does not resolve to the body but
    rejects, and a 422 whose body is [{error: 'text too long'}] rejects with
    the client's message for the status, not with that error. *)
Lemma non_success_response_rejects :
  let call_ (st : N) (body : value) :=
    result (stdService_standardize VUndefined (VStr (u "股市")) VUndefined
              (Replies 40 st body)) in
  carries_error (VObj ∅) = false /\
  call_ 404 (VObj ∅) = SettledAt 40 (Rejected (Error (VStr (u "请求的资源不存在")))) /\
  prop (VObj (<[u "error" := VStr (u "text too long")]> ∅)) (u "error")
    = VStr (u "text too long") /\
  call_ 422 (VObj (<[u "error" := VStr (u "text too long")]> ∅))
    = SettledAt 40 (Rejected (Error (VStr (u "发生未知错误，请稍后重试")))).
Proof. cbv zeta. split; [|split; [|split]]; vm_compute; reflexivity. Qed.

Lemma request_sends_once (env : value) (c : config) (net : network) :
  sent (request env c net) = [requestInterceptor env c].
Proof. reflexivity. Qed.

Lemma request_fails (env : value) (c : config) (d : N) :
  timeout c = 0 \/ d < timeout c ->
  result (request env c (Fails d)) =
    SettledAt d (Rejected (Error (VStr (u "网络连接失败，请检查网络设置")))).
Proof.
  intros Ht. unfold request, adapter. cbn [result].
  by rewrite requestInterceptor_timeout, (in_time_true _ _ Ht).
Qed.

(** C3: a call of the client hands its request to the adapter exactly once,
    so it is sent again 0 times, which is within the configured
    [maxRetries] of 3: no call retries without bound.  Every failure is
    surfaced when it happens: a response with a status outside 2xx, be it a
    validation error (400) or a transient one (503), rejects the promise at
    the time the response arrives, and so does a failed connection. *)
Theorem retries_bounded (env : value) (c : config) (net : network) :
  retries (request env c net) = 0%nat /\
  N.of_nat (retries (request env c net)) <= maxRetries (retry (API_CONFIG env)) /\
  maxRetries (retry (API_CONFIG env)) = 3 /\
  (forall d st body,
     net = Replies d st body -> validateStatus st = false ->
     timeout c = 0 \/ d < timeout c ->
     result (request env c net) = SettledAt d (Rejected (Error (statusMessage env st)))) /\
  (forall d,
     net = Fails d -> timeout c = 0 \/ d < timeout c ->
     result (request env c net) =
       SettledAt d (Rejected (Error (VStr (u "网络连接失败，请检查网络设置"))))).
Proof.
  split; [reflexivity|]. split; [cbn; lia|]. split; [reflexivity|]. split.
  - intros d st body -> Hst Ht. by rewrite (request_reply _ _ _ _ _ Ht), Hst.
  - intros d -> Ht. by apply request_fails.
Qed.

(** A 503 answer to a standardization request: one request, one rejection. *)
Lemma retries_bounded_witness :
  let c := stdService_standardize VUndefined (VStr (u "股市")) VUndefined
             (Replies 80 503 VNull) in
  length (sent c) = 1%nat /\
  result c = SettledAt 80 (Rejected (Error (VStr (u "发生未知错误，请稍后重试")))).
Proof.
  cbv zeta. split; [reflexivity|].
  refine (eq_trans (proj1 (proj2 (proj2 (proj2 (retries_bounded VUndefined _ _))))
            80 503 VNull eq_refl _ _) _).
  - reflexivity.
  - right. reflexivity.
  - vm_compute. reflexivity.
Defined.

(** ** The request timeout *)

Lemma adapter_settles (c : config) (net : network) :
  timeout c <> 0 ->
  exists t o, adapter c net = SettledAt t o /\ t <= timeout c.
Proof.
  intros Hpos. unfold adapter.
  destruct (timeout c =? 0) eqn:H0; [by apply N.eqb_eq in H0|]. cbn [orb].
  destruct net as [d st body|d| |msg].
  - destruct (d <? timeout c) eqn:Hd.
    + apply N.ltb_lt in Hd. eexists _, _. split; [reflexivity|lia].
    + eexists _, _. split; [reflexivity|lia].
  - destruct (d <? timeout c) eqn:Hd.
    + apply N.ltb_lt in Hd. eexists _, _. split; [reflexivity|lia].
    + eexists _, _. split; [reflexivity|lia].
  - eexists _, _. split; [reflexivity|lia].
  - eexists _, _. split; [reflexivity|lia].
Qed.

Lemma adapter_unanswered (c : config) (net : network) :
  timeout c <> 0 ->
  unanswered_within (timeout c) net = true ->
  exists e, adapter c net = SettledAt (timeout c) (inr e) /\
            err_response e = None /\ err_request e = true.
Proof.
  intros Hpos Hlate. unfold adapter.
  destruct (timeout c =? 0) eqn:H0; [by apply N.eqb_eq in H0|]. cbn [orb].
  destruct net as [d st body|d| |msg]; cbn [unanswered_within] in Hlate; try done.
  - apply N.leb_le in Hlate.
    destruct (d <? timeout c) eqn:Hd; [apply N.ltb_lt in Hd; lia|]. eauto.
  - apply N.leb_le in Hlate.
    destruct (d <? timeout c) eqn:Hd; [apply N.ltb_lt in Hd; lia|]. eauto.
  - eauto.
Qed.

Lemma post_client_sent (env : value) (url_ : jsstring) (d : value) (net : network) :
  Forall (fun c => timeout c = 30000) (sent (post env (client env) url_ d net)).
Proof.
  unfold post. rewrite request_sends_once. constructor; [|constructor].
  by rewrite requestInterceptor_timeout.
Qed.

Lemma post_client_settles (env : value) (url_ : jsstring) (d : value) (net : network) :
  exists t p, result (post env (client env) url_ d net) = SettledAt t p /\ t <= 30000.
Proof.
  unfold post, request. cbn [result].
  match goal with |- context [adapter ?c net] =>
    destruct (adapter_settles c net) as (t & o & -> & Ht)
  end.
  { by rewrite requestInterceptor_timeout. }
  rewrite requestInterceptor_timeout in Ht. cbn in Ht.
  destruct o; eauto.
Qed.

Lemma post_client_unanswered (env : value) (url_ : jsstring) (d : value) (net : network) :
  unanswered_within 30000 net = true ->
  result (post env (client env) url_ d net) =
    SettledAt 30000 (Rejected (Error (VStr (u "网络连接失败，请检查网络设置")))).
Proof.
  intros Hlate. unfold post, request. cbn [result].
  match goal with |- context [adapter ?c net] =>
    destruct (adapter_unanswered c net) as (e & -> & He1 & He2)
  end.
  - by rewrite requestInterceptor_timeout.
  - by rewrite requestInterceptor_timeout.
  - rewrite requestInterceptor_timeout. cbn [timeout client defaults_timeout].
    unfold responseErrorInterceptor. by rewrite He1, He2.
Qed.

(** C5: every request a service function sends carries the configured
    timeout of 30000 ms; whatever the network does, the call settles within
    these 30000 ms; and when no answer has come by then (late, failed late,
    or never), the promise is rejected at 30000 ms with the network error of
    the client. *)
Theorem service_calls_time_out (env text options : value) (net : network)
    (f : value -> value -> value -> network -> call) :
  f ∈ services ->
  Forall (fun c => timeout c = 30000) (sent (f env text options net)) /\
  (exists t p, result (f env text options net) = SettledAt t p /\ t <= 30000) /\
  (unanswered_within 30000 net = true ->
   result (f env text options net) =
     SettledAt 30000 (Rejected (Error (VStr (u "网络连接失败，请检查网络设置"))))).
Proof.
  unfold services. rewrite !elem_of_cons, elem_of_nil.
  intros [->|[->|[->|[->|[->|[]]]]]];
    (split; [apply post_client_sent|split;
       [apply post_client_settles|apply post_client_unanswered]]).
Qed.

(** The standardization request against a server that never answers. *)
Lemma service_calls_time_out_witness :
  result (stdService_standardize VUndefined (VStr (u "股市")) VUndefined Silent) =
    SettledAt 30000 (Rejected (Error (VStr (u "网络连接失败，请检查网络设置")))).
Proof.
  apply (service_calls_time_out VUndefined (VStr (u "股市")) VUndefined Silent
           stdService_standardize).
  - unfold services. apply list_elem_of_In. simpl. tauto.
  - reflexivity.
Defined.

(** ** Blank input *)

Lemma trimStart_blank (s : jsstring) :
  Forall (fun c => is_whitespace c = true) s -> trimStart s = [].
Proof. induction 1 as [|c s Hc _ IH]; [done|]. cbn. by rewrite Hc. Qed.

Lemma trimStart_nil_blank (s : jsstring) :
  trimStart s = [] -> Forall (fun c => is_whitespace c = true) s.
Proof.
  induction s as [|c s IH]; [constructor|]. cbn.
  destruct (is_whitespace c) eqn:Hc; [|done]. intros H. constructor; auto.
Qed.

Lemma trim_nil_iff (s : jsstring) :
  trim s = [] <-> Forall (fun c => is_whitespace c = true) s.
Proof.
  unfold trim, trimEnd. split.
  - intros H. apply (f_equal (@rev N)) in H. rewrite rev_involutive in H.
    cbn in H. apply trimStart_nil_blank in H.
    apply Forall_forall. intros c Hc.
    destruct (trimStart s) as [|h t] eqn:Hs.
    + apply trimStart_nil_blank in Hs. by eapply Forall_forall in Hs.
    + exfalso. assert (is_whitespace h = true) as Hh.
      { eapply Forall_forall in H; [exact H|].
        apply list_elem_of_In, in_rev. rewrite rev_involutive. by left. }
      clear -Hs Hh. destruct s as [|c s]; [done|]. cbn in Hs.
      revert c Hs. induction s as [|c1 s IH]; intros c Hs.
      * cbn in Hs. destruct (is_whitespace c) eqn:Hc; [done|]. congruence.
      * destruct (is_whitespace c) eqn:Hc; [|congruence].
        apply (IH c1). exact Hs.
  - intros H. by rewrite (trimStart_blank _ H).
Qed.

Lemma blank_iff (input : jsstring) :
  blank input = true <-> Forall (fun c => is_whitespace c = true) input.
Proof.
  rewrite <- trim_nil_iff. unfold blank.
  destruct (trim input); cbn [truthy negb]; split; done.
Qed.

Lemma handleSubmit_blank (prompt : jsstring) (api : jsstring -> obj -> api_result)
    (input : jsstring) (options : obj) :
  blank input = true ->
  handleSubmit prompt api input options =
    [Toast (u "错误") (VStr prompt) (u "error") 3000 true].
Proof. unfold handleSubmit, blank. by intros ->. Qed.

Lemma handleSubmit_nonblank (prompt : jsstring) (api : jsstring -> obj -> api_result)
    (input : jsstring) (options : obj) :
  blank input = false ->
  handleSubmit prompt api input options =
    [Dispatch (setLoading (VBool true)); Dispatch clearError; ApiCall input options]
    ++ (tryBlock (api input options)).1
    ++ [Dispatch (setLoading (VBool false))]
    ++ match (tryBlock (api input options)).2 with
       | Some e => [Throw e]
       | None => []
       end.
Proof. unfold handleSubmit, blank. by intros ->. Qed.

Lemma tryBlock_cases (r : api_result) :
  (exists e, catch_throws r = true /\ tryBlock r = ([], Some e)) \/
  (exists message,
     catch_throws r = false /\ truthy message = true /\
     tryBlock r = ([Dispatch (setError message);
                    Toast (u "错误") message (u "error") 3000 true], None)) \/
  (exists response,
     r = ApiResolved response /\ nullish response = false /\
     tryBlock r = ([SetResult (prop response (u "result"))], None)).
Proof.
  destruct r as [response|reason]; cbn [tryBlock catch_throws].
  - destruct (nullish response) eqn:Hn.
    + right. left. unfold catchBlock, error_object. cbn [nullish].
      eexists. split; [done|]. split; [|reflexivity].
      unfold js_or, prop. cbn [own_props]. rewrite lookup_insert_eq. cbn [default].
      by destruct response.
    + right. right. eauto.
  - unfold catchBlock. destruct (nullish reason) eqn:Hn.
    + left. eauto.
    + right. left. eexists. split; [done|]. split; [|reflexivity].
      unfold js_or. destruct (truthy (prop reason (u "message"))) eqn:Ht; done.
Qed.

(** X19: whenever it runs, the submit handler of the pages stops a blank
    input at the door: for an empty or whitespace-only input it shows the
    error toast with the page's prompt and does nothing else, so that the
    application state stays as it is and the API is not called.  For any
    other input it calls the API exactly once, with the input as typed (not
    trimmed) and the current options. *)
Theorem handleSubmit_blank_guard (prompt : jsstring)
    (api : jsstring -> obj -> api_result) (input : jsstring) (options : obj) :
  (Forall (fun c => is_whitespace c = true) input ->
     handleSubmit prompt api input options =
       [Toast (u "错误") (VStr prompt) (u "error") 3000 true] /\
     filter is_api_call (handleSubmit prompt api input options) = [] /\
     (forall s, run_effects s (handleSubmit prompt api input options) = s)) /\
  (~ Forall (fun c => is_whitespace c = true) input ->
     filter is_api_call (handleSubmit prompt api input options)
       = [ApiCall input options]).
Proof.
  split.
  - intros Hblank. apply blank_iff in Hblank.
    rewrite (handleSubmit_blank _ _ _ _ Hblank). done.
  - intros Hnot.
    assert (blank input = false) as Hb.
    { destruct (blank input) eqn:Hb; [|done]. by apply blank_iff in Hb. }
    rewrite (handleSubmit_nonblank _ _ _ _ Hb), !filter_app.
    destruct (tryBlock_cases (api input options))
      as [(e & _ & ->)|[(m & _ & _ & ->)|(r & _ & _ & ->)]]; reflexivity.
Qed.

(** Three spaces submitted on the entity recognition page. *)
Lemma handleSubmit_blank_guard_witness :
  NERPage_handleSubmit (fun _ _ => ApiRejected VUndefined) (u "   ")
    (modelOptions initialState) =
    [Toast (u "错误") (VStr (u "请输入需要提取术语的文本")) (u "error") 3000 true].
Proof.
  apply (handleSubmit_blank_guard (u "请输入需要提取术语的文本")
           (fun _ _ => ApiRejected VUndefined) (u "   ")
           (modelOptions initialState)).
  repeat constructor.
Defined.

(** ** The term standardization engine *)

Module EngineFacts.
Import Engine.

Lemma outranks_total s1 id1 s2 id2 :
  outranks s1 id1 s2 id2 \/ outranks s2 id2 s1 id1.
Proof.
  unfold outranks.
  destruct (Qlt_le_dec s2 s1) as [H|H]; [by left; left|].
  destruct (Qlt_le_dec s1 s2) as [H1|H1]; [by right; left|].
  assert (s1 == s2)%Q as He by lra.
  destruct (N.le_ge_cases id1 id2) as [Hi|Hi].
  - left. right. done.
  - right. right. split; [lra|done].
Qed.

Lemma outranks_trans s1 id1 s2 id2 s3 id3 :
  outranks s1 id1 s2 id2 -> outranks s2 id2 s3 id3 -> outranks s1 id1 s3 id3.
Proof.
  unfold outranks. intros [H1|[H1 H1']] [H2|[H2 H2']].
  - left. lra.
  - left. lra.
  - left. lra.
  - right. split; [lra|lia].
Qed.

Lemma outranks_score s1 id1 s2 id2 : outranks s1 id1 s2 id2 -> (s2 <= s1)%Q.
Proof. unfold outranks. intros [H|[H _]]; lra. Qed.

Lemma outranks_tie s1 id1 s2 id2 :
  outranks s1 id1 s2 id2 -> (s1 == s2)%Q -> (id1 <= id2)%N.
Proof. unfold outranks. intros [H|[_ H]] He; [lra|done]. Qed.

Lemma outranks_antisym s1 id1 s2 id2 :
  outranks s1 id1 s2 id2 -> outranks s2 id2 s1 id1 -> id1 = id2.
Proof.
  unfold outranks. intros [H1|[H1 H1']] [H2|[H2 H2']]; try lra. lia.
Qed.

#[local] Instance hit_before_total : Total hit_before.
Proof. intros a b. apply outranks_total. Qed.
#[local] Instance hit_before_trans : Transitive hit_before.
Proof. intros a b c. apply outranks_trans. Qed.
#[local] Instance candidate_before_total : Total candidate_before.
Proof. intros a b. apply outranks_total. Qed.
#[local] Instance candidate_before_trans : Transitive candidate_before.
Proof. intros a b c. apply outranks_trans. Qed.

Section sorted_lists.
Context {A : Type} (R : relation A).

Lemma StronglySorted_weaken (R1 : relation A) (l : list A) :
  (forall a b, R a b -> R1 a b) -> StronglySorted R l -> StronglySorted R1 l.
Proof.
  intros HR. induction 1 as [|a l _ IH Ha]; constructor; [done|].
  eapply Forall_impl; [exact Ha|]. auto.
Qed.

Lemma StronglySorted_take (k : nat) (l : list A) :
  StronglySorted R l -> StronglySorted R (take k l).
Proof.
  intros H. rewrite <- (take_drop k l) in H.
  by apply StronglySorted_app_1_l in H.
Qed.

Lemma StronglySorted_lookup (l : list A) (i j : nat) (a b : A) :
  StronglySorted R l -> (i < j)%nat ->
  l !! i = Some a -> l !! j = Some b -> R a b.
Proof.
  intros H. revert i j. induction H as [|x l _ IH Hx]; intros i j Hij Hi Hj.
  { by rewrite lookup_nil in Hi. }
  destruct j as [|j]; [lia|]. cbn in Hj.
  destruct i as [|i].
  - cbn in Hi. injection Hi as ->.
    eapply Forall_forall in Hx; [exact Hx|].
    by eapply list_elem_of_lookup_2.
  - cbn in Hi. apply (IH i j); [lia|done..].
Qed.
End sorted_lists.

Lemma NoDup_fmap_inj_on {A B} (f : A -> B) (l : list A) (a b : A) :
  NoDup (f <$> l) -> a ∈ l -> b ∈ l -> f a = f b -> a = b.
Proof.
  induction l as [|x l IH]; [by intros _ ?%elem_of_nil|].
  rewrite fmap_cons, NoDup_cons. intros [Hx Hl].
  rewrite !elem_of_cons. intros [->|Ha] [->|Hb] Hf; auto.
  - exfalso. apply Hx. rewrite Hf. by apply list_elem_of_fmap_2.
  - exfalso. apply Hx. rewrite <- Hf. by apply list_elem_of_fmap_2.
Qed.

Lemma search_sorted sim idx q k : StronglySorted hit_before (search sim idx q k).
Proof.
  unfold search. apply StronglySorted_take.
  apply StronglySorted_merge_sort; apply _.
Qed.

Lemma rank_order_independent (l1 l2 : list hit) :
  NoDup (hit_owner <$> l1) -> l2 ≡ₚ l1 ->
  merge_sort hit_before l2 = merge_sort hit_before l1.
Proof.
  intros Hnd Hp. apply (StronglySorted_unique_strong hit_before).
  - intros x1 x2. rewrite !merge_sort_Permutation, Hp.
    intros Hx1 Hx2 H12 H21.
    apply (NoDup_fmap_inj_on hit_owner l1); try done.
    by apply (outranks_antisym _ _ _ _ H12 H21).
  - apply StronglySorted_merge_sort; apply _.
  - apply StronglySorted_merge_sort; apply _.
  - by rewrite !merge_sort_Permutation.
Qed.

(** C6: the hits of a search come in descending score, ties in score in
    ascending term_id; and when no term is indexed twice, the result does
    not depend on the order in which the active slots are enumerated: every
    run over the same index state and query returns the same sequence. *)
Theorem search_deterministic (sim : vector -> vector -> Q) (idx : VectorIndex)
    (q : vector) (k : nat) :
  StronglySorted hit_before (search sim idx q k) /\
  (forall i j a b, (i < j)%nat ->
     search sim idx q k !! i = Some a -> search sim idx q k !! j = Some b ->
     (score b <= score a)%Q /\
     ((score a == score b)%Q -> (hit_owner a <= hit_owner b)%N)) /\
  (NoDup (hit_owner <$> active_hits sim q idx) ->
   forall enumeration, enumeration ≡ₚ active_hits sim q idx ->
     take k (merge_sort hit_before enumeration) = search sim idx q k).
Proof.
  split; [apply search_sorted|]. split.
  - intros i j a b Hij Hi Hj.
    pose proof (StronglySorted_lookup hit_before _ i j a b
                  (search_sorted sim idx q k) Hij Hi Hj) as H.
    split; [by eapply outranks_score|]. by eapply outranks_tie.
  - intros Hnd enumeration Hp. unfold search.
    by rewrite (rank_order_independent _ _ Hnd Hp).
Qed.

(** The scenario index, its slots visited from the last to the first. *)
Lemma search_deterministic_witness :
  take 5 (merge_sort hit_before (reverse (active_hits dot [4 # 5; 3 # 5]%Q (index demo))))
  = search dot (index demo) [4 # 5; 3 # 5]%Q 5.
Proof.
  apply (search_deterministic dot (index demo) [4 # 5; 3 # 5]%Q 5).
  - compute_done.
  - apply reverse_Permutation.
Defined.

Lemma standardize_blank E calls text topK thr :
  trim text = [] -> standardize E calls text topK thr = (inl EmptyInput, calls).
Proof. unfold standardize. by intros ->. Qed.

(** C1: for every empty or whitespace-only text, standardize rejects the
    input with EmptyInput before the embedding provider is called: the count
    of provider calls stays as it was, and the outcome is the same whatever
    the provider would have answered. *)
Theorem blank_text_rejected (E : engine) (calls : nat) (text : jsstring)
    (topK : nat) (similarityThreshold : Q) :
  Forall (fun c => is_whitespace c = true) text ->
  standardize E calls text topK similarityThreshold = (inl EmptyInput, calls) /\
  (forall provider : nat -> jsstring -> option vector,
     standardize {| similarity := similarity E; embed := provider;
                    index := index E; store := store E |}
       calls text topK similarityThreshold = (inl EmptyInput, calls)).
Proof.
  intros Hblank. apply trim_nil_iff in Hblank.
  split; [|intros provider]; by apply standardize_blank.
Qed.

(** Three spaces against the scenario engine. *)
Lemma blank_text_rejected_witness :
  standardize demo 0 (u "   ") 5 (3 # 4) = (inl EmptyInput, 0%nat).
Proof.
  apply (blank_text_rejected demo 0 (u "   ") 5 (3 # 4)).
  repeat constructor.
Defined.

Lemma standardize_unavailable E calls text topK thr :
  trim text <> [] -> embed E calls text = None ->
  standardize E calls text topK thr = (inl EmbeddingUnavailable, S calls).
Proof.
  unfold standardize. intros Ht He. rewrite He. by destruct (trim text).
Qed.

Lemma standardize_embedded E calls text topK thr v :
  trim text <> [] -> embed E calls text = Some v ->
  exists cands,
    standardize E calls text topK thr = (inr cands, S calls) /\
    StronglySorted candidate_before cands /\
    Forall (fun c => (thr <= cand_score c)%Q) cands.
Proof.
  unfold standardize. intros Ht He. rewrite He.
  destruct (trim text) as [|h t]; [done|].
  eexists. split; [reflexivity|]. split.
  - apply StronglySorted_merge_sort; apply _.
  - rewrite merge_sort_Permutation. apply Forall_forall.
    intros c Hc. by apply list_elem_of_filter in Hc as [Hc _].
Qed.

(** C2: for a non-blank text that the provider embeds, standardize returns
    a sequence of candidates whose scores never increase along the
    sequence and are all at least the similarity threshold. *)
Theorem standardize_ranked (E : engine) (calls : nat) (text : jsstring)
    (topK : nat) (similarityThreshold : Q) (v : vector) :
  trim text <> [] ->
  embed E calls text = Some v ->
  exists cands,
    standardize E calls text topK similarityThreshold = (inr cands, S calls) /\
    StronglySorted (fun a b => (cand_score b <= cand_score a)%Q) cands /\
    (forall i j a b, (i <= j)%nat -> cands !! i = Some a -> cands !! j = Some b ->
       (cand_score b <= cand_score a)%Q) /\
    Forall (fun c => (similarityThreshold <= cand_score c)%Q) cands.
Proof.
  intros Ht He.
  destruct (standardize_embedded E calls text topK similarityThreshold v Ht He)
    as (cands & Heq & Hsorted & Hthr).
  assert (StronglySorted (fun a b => (cand_score b <= cand_score a)%Q) cands) as Hs.
  { eapply StronglySorted_weaken; [|exact Hsorted].
    intros a b. apply outranks_score. }
  exists cands. split; [done|]. split; [done|]. split; [|done].
  intros i j a b Hij Hi Hj.
  destruct (decide (i = j)) as [->|Hne].
  - rewrite Hi in Hj. injection Hj as ->. lra.
  - apply (StronglySorted_lookup
             (fun a b => (cand_score b <= cand_score a)%Q) cands i j a b Hs);
      [lia|done..].
Qed.

(** The scenario query of section 8 with threshold 0.75. *)
Lemma standardize_ranked_witness :
  exists cands,
    standardize demo 0 (u "股市") 5 (3 # 4) = (inr cands, 1%nat) /\
    StronglySorted (fun a b => (cand_score b <= cand_score a)%Q) cands /\
    (forall i j a b, (i <= j)%nat -> cands !! i = Some a -> cands !! j = Some b ->
       (cand_score b <= cand_score a)%Q) /\
    Forall (fun c => (3 # 4 <= cand_score c)%Q) cands.
Proof.
  apply (standardize_ranked demo 0 (u "股市") 5 (3 # 4) [4 # 5; 3 # 5]%Q).
  - vm_compute. discriminate.
  - reflexivity.
Defined.

(** The batch loop. *)
Lemma standardizeBatch_loop_acc E calls texts topK thr done_ :
  standardizeBatch_loop E calls texts topK thr done_ =
    (reverse done_ ++ (standardizeBatch_loop E calls texts topK thr []).1,
     (standardizeBatch_loop E calls texts topK thr []).2).
Proof.
  revert calls done_. induction texts as [|text rest IH]; intros calls done_.
  - cbn [standardizeBatch_loop fst snd]. by rewrite app_nil_r.
  - cbn [standardizeBatch_loop].
    destruct (standardize E calls text topK thr) as [r calls1].
    rewrite (IH calls1 (r :: done_)), (IH calls1 [r]).
    cbn [fst snd]. rewrite reverse_cons, <- app_assoc. reflexivity.
Qed.

Lemma standardizeBatch_cons E calls text rest topK thr :
  standardizeBatch E calls (text :: rest) topK thr =
    ((standardize E calls text topK thr).1
       :: (standardizeBatch E (standardize E calls text topK thr).2 rest topK thr).1,
     (standardizeBatch E (standardize E calls text topK thr).2 rest topK thr).2).
Proof.
  unfold standardizeBatch. cbn.
  destruct (standardize E calls text topK thr) as [r calls1].
  by rewrite standardizeBatch_loop_acc.
Qed.

Lemma standardizeBatch_length E calls texts topK thr :
  length (standardizeBatch E calls texts topK thr).1 = length texts.
Proof.
  revert calls. induction texts as [|text rest IH]; intros calls; [done|].
  rewrite standardizeBatch_cons. cbn. by rewrite IH.
Qed.

Lemma standardizeBatch_lookup E calls texts topK thr i text :
  texts !! i = Some text ->
  (standardizeBatch E calls texts topK thr).1 !! i =
    Some (standardize E (standardizeBatch E calls (take i texts) topK thr).2
            text topK thr).1.
Proof.
  revert calls i. induction texts as [|t rest IH]; intros calls i Hi.
  { by rewrite lookup_nil in Hi. }
  destruct i as [|i].
  - cbn in Hi. injection Hi as ->. by rewrite standardizeBatch_cons.
  - cbn in Hi. cbn [take]. rewrite !standardizeBatch_cons. cbn [fst snd].
    apply (IH _ _ Hi).
Qed.

(** C7: the batch result has one entry per input text, in the order of the
    inputs: entry [i] is what standardize returns for text [i] at the
    moment its turn comes.  When the provider fails on a text, that entry is
    the EmbeddingUnavailable marker, and every text the provider embeds
    still gets its ranked candidates, whatever happened to the others. *)
Theorem batch_results (E : engine) (calls : nat) (texts : list jsstring)
    (topK : nat) (similarityThreshold : Q) :
  let out := (standardizeBatch E calls texts topK similarityThreshold).1 in
  length out = length texts /\
  (forall i text, texts !! i = Some text ->
     let before :=
       (standardizeBatch E calls (take i texts) topK similarityThreshold).2 in
     out !! i = Some (standardize E before text topK similarityThreshold).1 /\
     (trim text <> [] -> embed E before text = None ->
        out !! i = Some (inl EmbeddingUnavailable)) /\
     (trim text <> [] -> forall v, embed E before text = Some v ->
        exists cands,
          out !! i = Some (inr cands) /\
          StronglySorted candidate_before cands /\
          Forall (fun c => (similarityThreshold <= cand_score c)%Q) cands)).
Proof.
  cbv zeta. split; [apply standardizeBatch_length|].
  intros i text Hi.
  pose proof (standardizeBatch_lookup E calls texts topK similarityThreshold
                i text Hi) as Hout.
  split; [exact Hout|]. split.
  - intros Ht He. etrans; [exact Hout|].
    by rewrite (standardize_unavailable _ _ _ _ _ Ht He).
  - intros Ht v He.
    destruct (standardize_embedded _ _ _ topK similarityThreshold _ Ht He)
      as (cands & Heq & Hs & Hf).
    exists cands. split; [|done]. etrans; [exact Hout|]. by rewrite Heq.
Qed.

(** The scenario of section 8: three inputs, the provider failing on the
    second call. *)
Lemma batch_results_witness :
  (standardizeBatch demo 0 [u "股市"; u "证券"; u "债券"] 5 (3 # 4)).1 !! 1%nat
  = Some (inl EmbeddingUnavailable).
Proof.
  apply (proj2 (batch_results demo 0 [u "股市"; u "证券"; u "债券"] 5 (3 # 4))
           1%nat (u "证券") eq_refl).
  - vm_compute. discriminate.
  - reflexivity.
Defined.

Example batch_scenario :
  (standardizeBatch demo 0 [u "股市"; u "证券"; u "债券"] 5 (3 # 4)).1
  = [inr [{| term := stock_term; cand_score := 20 # 25 |}];
     inl EmbeddingUnavailable;
     inr [{| term := bond_term; cand_score := 1 |}]].
Proof. vm_compute. reflexivity. Qed.

End EngineFacts.

(** * Further properties of the code *)

(** ** The client *)

Lemma in_time_false (limit d : N) :
  (limit =? 0) || (d <? limit) = false -> limit <> 0 /\ limit <= d.
Proof.
  intros H. apply orb_false_iff in H as [H1 H2].
  apply N.eqb_neq in H1. apply N.ltb_ge in H2. done.
Qed.

Lemma in_time_prop (limit d : N) :
  (limit =? 0) || (d <? limit) = true -> limit = 0 \/ d < limit.
Proof.
  intros H. apply orb_true_iff in H as [H|H].
  - left. by apply N.eqb_eq.
  - right. by apply N.ltb_lt.
Qed.

Lemma responseErrorInterceptor_rejects (env : value) (e : axios_error) :
  exists t, responseErrorInterceptor env e = Rejected t.
Proof.
  unfold responseErrorInterceptor.
  destruct (err_response e); [eauto|]. destruct (err_request e); eauto.
Qed.

Lemma adapter_response_inv (c : config) (net : network) (t : N) (r : response) :
  adapter c net = SettledAt t (inl r) ->
  exists st body,
    net = Replies t st body /\ validateStatus st = true /\
    (timeout c = 0 \/ t < timeout c) /\
    r = {| resp_status := st; resp_data := body; resp_config := c |}.
Proof.
  unfold adapter. destruct net as [d st body|d| |msg].
  - destruct ((timeout c =? 0) || (d <? timeout c)) eqn:Ht; [|discriminate].
    destruct (validateStatus st) eqn:Hst; [|discriminate].
    intros [= <- <-]. exists st, body. apply in_time_prop in Ht. done.
  - destruct ((timeout c =? 0) || (d <? timeout c)); discriminate.
  - destruct (timeout c =? 0); discriminate.
  - discriminate.
Qed.

Lemma adapter_error_inv (c : config) (net : network) (t : N) (e : axios_error) :
  adapter c net = SettledAt t (inr e) ->
  (exists r, err_response e = Some r) \/
  (err_response e = None /\ err_request e = true) \/
  (net = NotSent (err_message e) /\ t = 0 /\
   err_response e = None /\ err_request e = false).
Proof.
  unfold adapter. destruct net as [d st body|d| |msg].
  - destruct ((timeout c =? 0) || (d <? timeout c)).
    + destruct (validateStatus st); [discriminate|].
      intros [= <- <-]. left. cbn [err_response]. eauto.
    + intros [= <- <-]. right. left. cbn [err_response err_request]. done.
  - destruct ((timeout c =? 0) || (d <? timeout c));
      intros [= <- <-]; right; left; cbn [err_response err_request]; done.
  - destruct (timeout c =? 0); [discriminate|].
    intros [= <- <-]. right. left. cbn [err_response err_request]. done.
  - intros [= <- <-]. right. right. cbn [err_response err_request err_message]. done.
Qed.

Lemma request_resolved_inv (env : value) (c : config) (net : network)
    (t : N) (v : value) :
  result (request env c net) = SettledAt t (Resolved v) ->
  exists st, net = Replies t st v /\ validateStatus st = true /\
             (timeout c = 0 \/ t < timeout c) /\ carries_error v = false.
Proof.
  intros H. pose proof (request_resolved _ _ _ _ _ H) as Hc.
  unfold request in H. cbn [result] in H.
  destruct (adapter (requestInterceptor env c) net) as [t1 [r|e]|] eqn:Ha;
    [| |discriminate].
  - apply adapter_response_inv in Ha as (st & body & -> & Hst & Ht & ->).
    rewrite requestInterceptor_timeout in Ht.
    rewrite responseInterceptor_spec in H. cbn [resp_data] in H.
    destruct (carries_error body); [discriminate|].
    injection H as -> ->. eauto.
  - destruct (responseErrorInterceptor_rejects env e) as [x Hx].
    rewrite Hx in H. discriminate.
Qed.

Lemma request_resolves (env : value) (c : config) (t st : N) (v : value) :
  validateStatus st = true -> timeout c = 0 \/ t < timeout c ->
  carries_error v = false ->
  result (request env c (Replies t st v)) = SettledAt t (Resolved v).
Proof.
  intros Hst Ht Hc.
  rewrite (request_reply _ _ _ _ _ Ht), Hst, responseInterceptor_spec.
  cbn [resp_data]. by rewrite Hc.
Qed.

(** X1: a call resolves exactly when the server answers in time with a success
    status and a body without a truthy [error] field; it then resolves to that
    body, at the time the answer arrives. *)
Theorem call_resolves_iff (env : value) (c : config) (net : network)
    (t : N) (v : value) :
  result (request env c net) = SettledAt t (Resolved v) <->
  exists st, net = Replies t st v /\ validateStatus st = true /\
             (timeout c = 0 \/ t < timeout c) /\ carries_error v = false.
Proof.
  split; [apply request_resolved_inv|].
  intros (st & -> & Hst & Ht & Hc). by apply request_resolves.
Qed.

Lemma statusMessage_shown (env : value) (st : N) :
  statusMessage env st = VStr (shown_message st).
Proof.
  unfold statusMessage, shown_message.
  repeat (match goal with |- context [?a =? ?b] => destruct (a =? b) end;
          [vm_compute; reflexivity|]).
  vm_compute. reflexivity.
Qed.

Lemma shown_message_nonempty (st : N) : shown_message st <> [].
Proof.
  unfold shown_message.
  repeat (match goal with |- context [?a =? ?b] => destruct (a =? b) end;
          [vm_compute; discriminate|]).
  vm_compute. discriminate.
Qed.

(** X2: when the server answers in time with a status outside 2xx, the promise
    rejects at that time with [new Error(message)], where the message is a
    non-empty text fixed by the status alone: neither the response body nor
    the environment has any influence on it.  For 500 and for the statuses
    the [switch] does not list, it is the configured message
    ([errorMessages.serverError], [errorMessages.unknownError]), not the
    literal written in the [switch]. *)
Theorem error_status_message (env : value) (c : config) (d st : N) (body : value) :
  validateStatus st = false ->
  timeout c = 0 \/ d < timeout c ->
  result (request env c (Replies d st body)) =
    SettledAt d (Rejected (Error (VStr (shown_message st)))) /\
  shown_message st <> [] /\
  (st = 500 ->
     Some (VStr (shown_message st)) = errorMessages (API_CONFIG env) !! u "serverError") /\
  (st ∉ [400; 401; 403; 404; 500] ->
     Some (VStr (shown_message st)) = errorMessages (API_CONFIG env) !! u "unknownError").
Proof.
  intros Hst Ht. split; [|split; [|split]].
  - by rewrite (request_reply _ _ _ _ _ Ht), Hst, statusMessage_shown.
  - apply shown_message_nonempty.
  - intros ->. vm_compute. reflexivity.
  - rewrite !not_elem_of_cons. intros (H1 & H2 & H3 & H4 & H5 & _).
    unfold shown_message.
    rewrite (proj2 (N.eqb_neq _ _) H1), (proj2 (N.eqb_neq _ _) H2),
      (proj2 (N.eqb_neq _ _) H3), (proj2 (N.eqb_neq _ _) H4),
      (proj2 (N.eqb_neq _ _) H5).
    vm_compute. reflexivity.
Qed.

(** A 422 answer with an error body: the body's text is not what is shown. *)
Lemma error_status_message_witness :
  result (request VUndefined
            {| baseURL := VUndefined; timeout := 30000; headers := ∅;
               method := u "post"; url := u "/api/std"; data := VNull |}
            (Replies 40 422 (VObj (<[u "error" := VStr (u "text too long")]> ∅))))
  = SettledAt 40 (Rejected (Error (VStr (u "发生未知错误，请稍后重试")))).
Proof.
  refine (eq_trans (proj1 (error_status_message VUndefined _ 40 422 _ _ _)) _).
  - reflexivity.
  - right. reflexivity.
  - vm_compute. reflexivity.
Defined.

(** X3: the error of a request that could not be set up is the only one the
    client passes on as it is: a call rejects with the axios error itself
    exactly when the request was never sent, and that error then says so
    (no request, no response) and keeps its message. *)
Theorem unsent_error_passes_through (env : value) (c : config) (net : network)
    (t : N) (e : axios_error) :
  result (request env c net) = SettledAt t (Rejected (AxiosError e)) <->
  net = NotSent (err_message e) /\ t = 0 /\
  err_response e = None /\ err_request e = false.
Proof.
  split.
  - unfold request. cbn [result].
    destruct (adapter (requestInterceptor env c) net) as [t1 [r|e1]|] eqn:Ha;
      [| |discriminate].
    + rewrite responseInterceptor_spec.
      destruct (carries_error (resp_data r)); discriminate.
    + unfold responseErrorInterceptor.
      apply adapter_error_inv in Ha as [[r Hr]|[[Hr Hq]|(Hn & Ht & Hr & Hq)]].
      * rewrite Hr. discriminate.
      * rewrite Hr, Hq. discriminate.
      * rewrite Hr, Hq. intros [= <- <-]. done.
  - intros (-> & -> & Hr & Hq). unfold request. cbn [result adapter].
    unfold responseErrorInterceptor. cbn [err_response err_request].
    destruct e as [r q m]. cbn [err_response err_request err_message] in *.
    by subst.
Qed.

(** ** The request interceptor, again *)

Lemma js_or_truthy (a b : value) : truthy b = true -> truthy (js_or a b) = true.
Proof. unfold js_or. intros Hb. by destruct (truthy a) eqn:Ha. Qed.

Lemma js_or_keep (a b : value) : truthy a = true -> js_or a b = a.
Proof. unfold js_or. by intros ->. Qed.

Lemma model_defaults_truthy (k : jsstring) (dflt : value) :
  (k, dflt) ∈ model_defaults -> truthy dflt = true.
Proof.
  unfold model_defaults. rewrite !elem_of_cons, elem_of_nil.
  intros [H|[H|[H|[H|[]]]]]; injection H as -> ->; reflexivity.
Qed.

Lemma model_defaults_key_cases (k : jsstring) :
  (exists dflt, (k, dflt) ∈ model_defaults) \/ k ∉ model_defaults.*1.
Proof.
  destruct (decide (k ∈ model_defaults.*1)) as [Hin|Hout]; [left|by right].
  apply list_elem_of_fmap in Hin as ([k1 dflt] & -> & Hin). eauto.
Qed.

(** X4: whenever the request interceptor lets a payload through (a truthy one),
    the payload that leaves has all four model parameters set to truthy
    values, and it has lost none of the properties it came with. *)
Theorem intercepted_payload_complete (env : value) (c : config) :
  truthy (data c) = true ->
  (forall k dflt, (k, dflt) ∈ model_defaults ->
     truthy (prop (data (requestInterceptor env c)) k) = true) /\
  (forall k, k ∈ dom (own_props (data c)) ->
     k ∈ dom (own_props (data (requestInterceptor env c)))).
Proof.
  intros Ht. rewrite (requestInterceptor_truthy _ _ Ht). cbn [data own_props].
  split.
  - intros k dflt Hk. unfold prop. cbn [own_props].
    rewrite (withModelDefaults_default _ _ _ _ Hk). cbn [default].
    apply js_or_truthy. by eapply model_defaults_truthy.
  - intros k Hk. apply elem_of_dom.
    destruct (model_defaults_key_cases k) as [[dflt Hd]|Hother].
    + rewrite (withModelDefaults_default _ _ _ _ Hd). eauto.
    + rewrite (withModelDefaults_other _ _ _ Hother). by apply elem_of_dom.
Qed.

(** A payload with an empty model name and nothing else. *)
Lemma intercepted_payload_complete_witness :
  truthy (prop (data (requestInterceptor VUndefined
                        {| baseURL := VUndefined; timeout := 0; headers := ∅;
                           method := u "post"; url := u "/api/gen";
                           data := VObj (<[u "model_name" := VStr []]> ∅) |}))
               (u "model_name")) = true.
Proof.
  apply (proj1 (intercepted_payload_complete VUndefined
           {| baseURL := VUndefined; timeout := 0; headers := ∅;
              method := u "post"; url := u "/api/gen";
              data := VObj (<[u "model_name" := VStr []]> ∅) |} eq_refl)
           (u "model_name") (VStr (u "glm-4-plus"))).
  unfold model_defaults. apply list_elem_of_In. simpl. tauto.
Defined.

Lemma withModelDefaults_fixpoint (env d : value) :
  withModelDefaults env (VObj (withModelDefaults env d)) = withModelDefaults env d.
Proof.
  apply map_eq. intros k.
  destruct (model_defaults_key_cases k) as [[dflt Hd]|Hother].
  - rewrite !(withModelDefaults_default _ _ _ _ Hd). f_equal.
    unfold prop at 1. cbn [own_props].
    rewrite (withModelDefaults_default _ _ _ _ Hd). cbn [default].
    apply js_or_keep, js_or_truthy. by eapply model_defaults_truthy.
  - by rewrite (withModelDefaults_other _ _ _ Hother).
Qed.

(** X5: the request interceptor is idempotent: a request that went through it
    once passes a second time unchanged, so a request that is handed to the
    client again gets no further changes. *)
Theorem requestInterceptor_idempotent (env : value) (c : config) :
  requestInterceptor env (requestInterceptor env c) = requestInterceptor env c.
Proof.
  destruct (truthy (data c)) eqn:Ht.
  - rewrite (requestInterceptor_truthy _ c Ht).
    rewrite requestInterceptor_truthy by reflexivity.
    cbn [baseURL timeout headers method url data].
    by rewrite withModelDefaults_fixpoint.
  - by rewrite !(requestInterceptor_falsy _ c Ht).
Qed.

(** ** The services *)

Lemma body_of_prop (env text options : value) (k : jsstring) :
  k ∉ model_defaults.*1 ->
  withModelDefaults env (body_of text options) !! k
    = (<[u "options" := options]> (<[u "text" := text]> (∅ : obj))) !! k.
Proof. intros Hk. by rewrite (withModelDefaults_other _ _ _ Hk). Qed.

Lemma post_client_request (env : value) (url_ : jsstring) (text options : value)
    (net : network) :
  sent (post env (client env) url_ (body_of text options) net) =
    [ {| baseURL := js_or env (VStr (u "http://localhost:8000"));
         timeout := 30000;
         headers := cfg_headers (API_CONFIG env);
         method := u "post"; url := url_;
         data := VObj (withModelDefaults env (body_of text options)) |} ].
Proof. reflexivity. Qed.

(** X6: each of the five service functions sends exactly one request: a POST to
    its own endpoint, with the timeout of 30000 ms, carrying the text and the
    options it was given untouched.  The model parameters of the request are
    always the defaults ('glm-4-plus', 0.7, 0.9, 2000), whatever the options
    say: the options travel as the property [options] and are not where the
    interceptor looks. *)
Theorem service_request_shape (env text options : value) (net : network)
    (f : value -> value -> value -> network -> call) (endpoint : jsstring) :
  (f, endpoint) ∈ service_endpoints ->
  exists c,
    sent (f env text options net) = [c] /\
    method c = u "post" /\ url c = endpoint /\ timeout c = 30000 /\
    prop (data c) (u "text") = text /\
    prop (data c) (u "options") = options /\
    (forall k dflt, (k, dflt) ∈ model_defaults -> prop (data c) k = dflt).
Proof.
  unfold service_endpoints. rewrite !elem_of_cons, elem_of_nil.
  intros H.
  assert (exists url_, endpoint = url_ /\
            f env text options net
              = post env (client env) url_ (body_of text options) net)
    as (url_ & -> & ->).
  { destruct H as [H|[H|[H|[H|[H|[]]]]]]; injection H as -> ->;
      eexists; split; reflexivity. }
  eexists. split; [apply post_client_request|].
  cbn [method url timeout data].
  split; [reflexivity|]. split; [reflexivity|]. split; [reflexivity|].
  assert (forall k, k ∉ model_defaults.*1 ->
            prop (VObj (withModelDefaults env (body_of text options))) k
            = default VUndefined
                ((<[u "options" := options]> (<[u "text" := text]> (∅ : obj))) !! k))
    as Hother.
  { intros k Hk. unfold prop. cbn [own_props]. by rewrite body_of_prop. }
  assert (forall k : jsstring, k ∈ [u "text"; u "options"] -> k ∉ model_defaults.*1)
    as Hfresh.
  { intros k Hk. rewrite !elem_of_cons, elem_of_nil in Hk.
    unfold model_defaults. cbn [fmap list_fmap fst]. rewrite !not_elem_of_cons.
    destruct Hk as [->|[->|[]]]; repeat split; try keys_differ;
      apply not_elem_of_nil. }
  split; [|split].
  - rewrite Hother by (apply Hfresh, list_elem_of_In; simpl; tauto).
    by lookup_inserts.
  - rewrite Hother by (apply Hfresh, list_elem_of_In; simpl; tauto).
    by lookup_inserts.
  - intros k dflt Hk. unfold prop. cbn [own_props].
    rewrite (withModelDefaults_default _ _ _ _ Hk). cbn [default].
    unfold model_defaults in Hk. rewrite !elem_of_cons, elem_of_nil in Hk.
    destruct Hk as [Hk|[Hk|[Hk|[Hk|[]]]]]; injection Hk as -> ->;
      unfold js_or, prop, body_of; cbn [own_props];
      rewrite !lookup_insert_ne by keys_differ; rewrite lookup_empty; reflexivity.
Qed.

(** A generation request whose options ask for another model. *)
Lemma service_request_shape_witness :
  exists c,
    sent (genService_generate VUndefined (VStr (u "季度报告"))
            (VObj (<[u "model" := VStr (u "glm-4-air")]> ∅)) Silent) = [c] /\
    method c = u "post" /\ url c = u "/api/gen" /\ timeout c = 30000 /\
    prop (data c) (u "text") = VStr (u "季度报告") /\
    prop (data c) (u "options") = VObj (<[u "model" := VStr (u "glm-4-air")]> ∅) /\
    (forall k dflt, (k, dflt) ∈ model_defaults -> prop (data c) k = dflt).
Proof.
  apply (service_request_shape VUndefined (VStr (u "季度报告"))
           (VObj (<[u "model" := VStr (u "glm-4-air")]> ∅)) Silent
           genService_generate (u "/api/gen")).
  unfold service_endpoints. apply list_elem_of_In. simpl. tauto.
Defined.

(** X7: a service call resolves to a value exactly when the server answers with
    that value as body, with a status from 200 to 299, strictly before
    30000 ms, and the body has no truthy [error] field; the promise then
    resolves at the moment the answer arrives.  An answer that arrives at
    30000 ms or later never resolves the call. *)
Theorem service_resolves_iff (env text options : value) (net : network)
    (f : value -> value -> value -> network -> call) (t : N) (v : value) :
  f ∈ services ->
  (result (f env text options net) = SettledAt t (Resolved v) <->
   exists st, net = Replies t st v /\ 200 <= st < 300 /\ t < 30000 /\
              carries_error v = false).
Proof.
  unfold services. rewrite !elem_of_cons, elem_of_nil. intros Hf.
  assert (exists url_, f env text options net
            = post env (client env) url_ (body_of text options) net)
    as [url_ ->].
  { destruct Hf as [->|[->|[->|[->|[->|[]]]]]]; eexists; reflexivity. }
  assert (forall st, validateStatus st = true <-> 200 <= st < 300) as Hv.
  { intros st. unfold validateStatus.
    rewrite andb_true_iff, N.leb_le, N.ltb_lt. done. }
  unfold post. split.
  - intros H. apply request_resolved_inv in H as (st & -> & Hst & Ht & Hc).
    cbn [timeout client defaults_timeout API_CONFIG cfg_timeout] in Ht.
    exists st. split; [done|]. split; [by apply Hv|].
    split; [|done]. destruct Ht as [Ht|Ht]; [discriminate Ht|done].
  - intros (st & -> & Hst & Ht & Hc). apply request_resolves; [by apply Hv| |done].
    right. exact Ht.
Qed.

(** An abbreviation request answered after 15 ms. *)
Lemma service_resolves_iff_witness :
  result (abbrService_expand VUndefined (VStr (u "IPO")) VUndefined
            (Replies 15 200 (VObj (<[u "result" := VStr (u "首次公开募股")]> ∅))))
  = SettledAt 15 (Resolved (VObj (<[u "result" := VStr (u "首次公开募股")]> ∅))).
Proof.
  apply (service_resolves_iff VUndefined (VStr (u "IPO")) VUndefined
           (Replies 15 200 (VObj (<[u "result" := VStr (u "首次公开募股")]> ∅)))
           abbrService_expand 15
           (VObj (<[u "result" := VStr (u "首次公开募股")]> ∅))).
  - unfold services. apply list_elem_of_In. simpl. tauto.
  - exists 200. split; [reflexivity|]. split; [lia|]. split; [lia|].
    vm_compute. reflexivity.
Defined.

(** ** The application state reducer, again *)

Lemma reducer_other_modelOptions (s : app_state) (a : action) :
  type a <> VStr SET_MODEL_OPTIONS -> modelOptions (reducer s a) = modelOptions s.
Proof.
  intros Ht. unfold reducer. destruct (type a) as [| |b|f|t|m]; try done.
  repeat case_decide; try done. congruence.
Qed.

Lemma reducer_modelOptions_cases (s : app_state) (a : action) :
  modelOptions (reducer s a) = modelOptions s \/
  modelOptions (reducer s a) = spread2 (modelOptions s) (payload a).
Proof.
  unfold reducer. destruct (type a) as [| |b|f|t|m]; auto.
  repeat case_decide; auto.
Qed.

Lemma reducer_keeps_keys (s : app_state) (a : action) (k : jsstring) :
  k ∈ dom (modelOptions s) -> k ∈ dom (modelOptions (reducer s a)).
Proof.
  intros Hk. destruct (reducer_modelOptions_cases s a) as [->| ->]; [done|].
  rewrite dom_spread2. apply elem_of_union. by right.
Qed.

(** X8: no sequence of actions ever removes a model option: a key of
    [modelOptions] stays a key whatever is dispatched afterwards.  In
    particular model, embeddingModel and dbName are present in every state
    the application reaches from [initialState]. *)
Theorem options_never_removed (s : app_state) (actions : list action) (k : jsstring) :
  k ∈ dom (modelOptions s) ->
  k ∈ dom (modelOptions (foldl reducer s actions)) /\
  recognized_options ⊆ dom (modelOptions (foldl reducer initialState actions)).
Proof.
  assert (forall s0 k0, k0 ∈ dom (modelOptions s0) ->
            k0 ∈ dom (modelOptions (foldl reducer s0 actions))) as Hkeep.
  { induction actions as [|a rest IH]; intros s0 k0 Hk0; [done|].
    cbn [foldl]. apply IH. by apply reducer_keeps_keys. }
  intros Hk. split; [by apply Hkeep|].
  intros k0 Hk0. apply Hkeep. by rewrite initial_options_dom.
Qed.

(** After an error, a cleared error and an invalid options update the
    database name is still there. *)
Lemma options_never_removed_witness :
  u "dbName" ∈ dom (modelOptions
    (foldl reducer initialState
       [setError (VStr (u "boom")); clearError; setModelOptions VNull;
        handleChange (u "model") []])).
Proof.
  refine (proj1 (options_never_removed initialState
           [setError (VStr (u "boom")); clearError; setModelOptions VNull;
            handleChange (u "model") []] (u "dbName") _)).
  rewrite initial_options_dom. unfold recognized_options.
  rewrite !elem_of_union, !elem_of_singleton. tauto.
Defined.

Lemma app_state_eta (s : app_state) :
  {| modelOptions := modelOptions s; loading := loading s; error := error s |} = s.
Proof. by destruct s. Qed.

(** X9: a change of an input of ModelOptionsPanel is read back as typed: after
    [handleChange] the option of that name holds the typed text, every other
    option holds what it held before, so the input shows the text and the
    other inputs do not move; [loading] and [error] are untouched. *)
Theorem handleChange_read_back (s : app_state) (name text : jsstring) (k : jsstring) :
  modelOptions (reducer s (handleChange name text)) !! k =
    (if decide (k = name) then Some (VStr text) else modelOptions s !! k) /\
  (name ∈ panel_input_names ->
     (name, VStr text)
       ∈ ModelOptionsPanel_values (modelOptions (reducer s (handleChange name text)))) /\
  loading (reducer s (handleChange name text)) = loading s /\
  error (reducer s (handleChange name text)) = error s.
Proof.
  assert (forall j, modelOptions (reducer s (handleChange name text)) !! j =
            if decide (j = name) then Some (VStr text) else modelOptions s !! j)
    as Hlookup.
  { intros j. unfold handleChange. rewrite reducer_setModelOptions.
    unfold spread2. cbn [own_props]. case_decide as Hj.
    - subst j. apply lookup_union_Some_l. apply lookup_insert_eq.
    - rewrite lookup_union_r; [done|]. by rewrite lookup_insert_ne, lookup_empty. }
  split; [apply Hlookup|]. split.
  - intros Hname. unfold ModelOptionsPanel_values, prop. cbn [own_props].
    unfold panel_input_names in Hname.
    rewrite !elem_of_cons, elem_of_nil in Hname.
    destruct Hname as [->|[->|[->|[]]]]; rewrite !Hlookup;
      repeat (rewrite decide_True by done); repeat (rewrite decide_False by keys_differ);
      cbn [default]; apply list_elem_of_In; simpl; tauto.
  - unfold handleChange, setModelOptions, reducer. cbn [type payload].
    rewrite decide_True by done. done.
Qed.

(** X10: dispatching the same action twice leaves the state as it is after the
    first dispatch, for every action. *)
Theorem reducer_idempotent (s : app_state) (a : action) :
  reducer (reducer s a) a = reducer s a.
Proof.
  unfold reducer. destruct (type a) as [| |b|f|t|m]; try done.
  repeat case_decide; try done.
  cbn [modelOptions loading error]. f_equal.
  unfold spread2. by rewrite (assoc (∪)), (idemp (∪)).
Qed.

(** X11: an options update whose payload has no properties of its own
    (undefined, null, a boolean, a number, the empty string or an empty
    object) changes nothing at all. *)
Theorem empty_update_changes_nothing (s : app_state) (b : bool) (f : spec_float) :
  reducer s (setModelOptions VUndefined) = s /\
  reducer s (setModelOptions VNull) = s /\
  reducer s (setModelOptions (VBool b)) = s /\
  reducer s (setModelOptions (VNum f)) = s /\
  reducer s (setModelOptions (VStr [])) = s /\
  reducer s (setModelOptions (VObj ∅)) = s.
Proof.
  assert (forall p, own_props p = ∅ -> reducer s (setModelOptions p) = s) as H.
  { intros p Hp. unfold reducer, setModelOptions. cbn [type payload].
    rewrite decide_True by done. unfold spread2. rewrite Hp, (left_id ∅ (∪)).
    apply app_state_eta. }
  repeat split; by apply H.
Qed.

(** X12: setting an error and clearing it, or switching loading on and off, brings
    a state without error and not loading back to exactly itself: the pair
    around an API call leaves no trace in the state. *)
Theorem error_and_loading_round_trip (s : app_state) (e l : value) :
  error s = VNull -> loading s = VBool false ->
  reducer (reducer s (setError e)) clearError = s /\
  reducer (reducer s (setLoading l)) (setLoading (VBool false)) = s.
Proof.
  destruct action_names_distinct as (H1 & H2 & H3 & H4 & H5 & H6).
  intros He Hl. destruct s as [m l0 e0]. cbn in He, Hl. subst.
  unfold reducer, setError, setLoading, clearError. cbn [type payload].
  repeat (first [rewrite decide_True by done | rewrite decide_False by congruence]).
  cbn. split; reflexivity.
Qed.

Lemma error_and_loading_round_trip_witness :
  reducer (reducer initialState (setError (VStr (u "boom")))) clearError
  = initialState.
Proof.
  apply (error_and_loading_round_trip initialState (VStr (u "boom")) (VBool true));
    reflexivity.
Defined.

(** ** The submit handler of the pages, again *)

Lemma reducer_setLoading (s : app_state) (l : value) :
  reducer s (setLoading l) =
    {| modelOptions := modelOptions s; loading := l; error := error s |}.
Proof.
  destruct action_names_distinct as (H1 & H2 & H3 & H4 & H5 & H6).
  unfold reducer, setLoading. cbn [type payload].
  by repeat (first [rewrite decide_True by done | rewrite decide_False by congruence]).
Qed.

Lemma reducer_setError (s : app_state) (e : value) :
  reducer s (setError e) =
    {| modelOptions := modelOptions s; loading := loading s; error := e |}.
Proof.
  destruct action_names_distinct as (H1 & H2 & H3 & H4 & H5 & H6).
  unfold reducer, setError. cbn [type payload].
  by repeat (first [rewrite decide_True by done | rewrite decide_False by congruence]).
Qed.

Lemma reducer_clearError (s : app_state) :
  reducer s clearError =
    {| modelOptions := modelOptions s; loading := loading s; error := VNull |}.
Proof.
  destruct action_names_distinct as (H1 & H2 & H3 & H4 & H5 & H6).
  unfold reducer, clearError. cbn [type payload].
  by repeat (first [rewrite decide_True by done | rewrite decide_False by congruence]).
Qed.

Lemma run_effects_throw (s : app_state) (thrown : option value) :
  run_effects s (match thrown with Some e => [Throw e] | None => [] end) = s.
Proof. by destruct thrown. Qed.

Lemma run_effects_app (s : app_state) (es1 es2 : list effect) :
  run_effects s (es1 ++ es2) = run_effects (run_effects s es1) es2.
Proof. unfold run_effects. apply foldl_app. Qed.

(** X13: whenever the handler runs on a non-blank input, it leaves the
    application state with [loading] switched off and the model options
    untouched, however the API call ends.  [error] is null after a success.
    After a rejection with an error, or an answer of undefined or null, it is
    a truthy message: the error's own message, or '处理失败' when that is
    missing or empty.  After a rejection with undefined or null the [catch]
    block itself throws before [setError]: [error] is then null, as
    [clearError] left it. *)
Theorem handleSubmit_final_state (prompt : jsstring)
    (api : jsstring -> obj -> api_result) (input : jsstring) (options : obj)
    (s : app_state) :
  ~ Forall (fun c => is_whitespace c = true) input ->
  let s1 := run_effects s (handleSubmit prompt api input options) in
  loading s1 = VBool false /\
  modelOptions s1 = modelOptions s /\
  match api input options with
  | ApiResolved response =>
    if nullish response
    then error s1 = VStr (typeErrorMessage response (u "result")) /\
         truthy (error s1) = true
    else error s1 = VNull
  | ApiRejected reason =>
    if nullish reason then error s1 = VNull
    else error s1 = js_or (prop reason (u "message")) (VStr (u "处理失败")) /\
         truthy (error s1) = true
  end.
Proof.
  intros Hnot. cbv zeta.
  assert (blank input = false) as Hb.
  { destruct (blank input) eqn:Hb; [|done]. by apply blank_iff in Hb. }
  rewrite (handleSubmit_nonblank _ _ _ _ Hb).
  rewrite !run_effects_app, run_effects_throw.
  unfold run_effects at 3. cbn [foldl].
  rewrite reducer_setLoading, reducer_clearError.
  destruct (api input options) as [response|reason]; cbn [tryBlock].
  - destruct (nullish response) eqn:Hn.
    + unfold catchBlock, error_object. cbn [nullish fst].
      unfold run_effects. cbn [foldl].
      rewrite reducer_setError, reducer_setLoading.
      cbn [loading modelOptions error].
      assert (js_or (prop (VObj (<[u "message" :=
                VStr (typeErrorMessage response (u "result"))]> ∅)) (u "message"))
                (VStr (u "处理失败"))
              = VStr (typeErrorMessage response (u "result"))) as ->.
      { unfold js_or, prop. cbn [own_props]. rewrite lookup_insert_eq.
        cbn [default]. by destruct response. }
      split; [done|]. split; [done|]. split; [done|]. by destruct response.
    + cbn [fst]. unfold run_effects. cbn [foldl]. rewrite reducer_setLoading.
      cbn [loading modelOptions error]. done.
  - unfold catchBlock. destruct (nullish reason) eqn:Hn; cbn [fst].
    + unfold run_effects. cbn [foldl]. rewrite reducer_setLoading.
      cbn [loading modelOptions error]. done.
    + unfold run_effects. cbn [foldl].
      rewrite reducer_setError, reducer_setLoading.
      cbn [loading modelOptions error].
      split; [done|]. split; [done|]. split; [done|].
      apply js_or_truthy. reflexivity.
Qed.

(** A correction request that fails with an error without message. *)
Lemma handleSubmit_final_state_witness :
  let s1 := run_effects
              {| modelOptions := modelOptions initialState;
                 loading := VBool false; error := VStr (u "old") |}
              (CorrPage_handleSubmit (fun _ _ => ApiRejected (VObj ∅))
                 (u "股市") (modelOptions initialState)) in
  loading s1 = VBool false /\
  modelOptions s1 = modelOptions initialState /\
  error s1 = js_or (prop (VObj ∅) (u "message")) (VStr (u "处理失败")) /\
  truthy (error s1) = true.
Proof.
  refine (handleSubmit_final_state (u "请输入需要纠错的术语")
           (fun _ _ => ApiRejected (VObj ∅)) (u "股市")
           (modelOptions initialState)
           {| modelOptions := modelOptions initialState;
              loading := VBool false; error := VStr (u "old") |} _).
  intros H. apply trim_nil_iff in H. vm_compute in H. discriminate H.
Defined.

(** X14: whenever the handler runs, a submit has exactly one visible outcome,
    either one toast (blank input, or a failed call) or one update of the
    displayed result (a successful call, with [response.result]), never
    both; the one submit with no visible outcome at all is the one whose API
    promise was rejected with undefined or null, where the [catch] block
    throws and the handler's own promise is rejected instead.  The API is
    called at most once. *)
Theorem handleSubmit_one_outcome (prompt : jsstring)
    (api : jsstring -> obj -> api_result) (input : jsstring) (options : obj) :
  let es := handleSubmit prompt api input options in
  let thrown := negb (blank input) && catch_throws (api input options) in
  (length (filter is_toast es) + length (filter is_set_result es)
     = if thrown then 0 else 1)%nat /\
  (length (filter is_api_call es) <= 1)%nat /\
  (thrown = true <-> exists e, Throw e ∈ es) /\
  (filter is_set_result es <> [] ->
     exists response, api input options = ApiResolved response /\
                      nullish response = false /\
                      filter is_set_result es = [SetResult (prop response (u "result"))]).
Proof.
  cbv zeta. destruct (blank input) eqn:Hb; cbn [negb andb].
  { rewrite (handleSubmit_blank _ _ _ _ Hb).
    split; [reflexivity|]. split; [apply Nat.le_0_l|]. split.
    - split; [discriminate|]. intros [e He].
      rewrite elem_of_cons, elem_of_nil in He. destruct He as [He|[]].
      discriminate He.
    - intros H. exfalso. by apply H. }
  rewrite (handleSubmit_nonblank _ _ _ _ Hb), !filter_app.
  destruct (tryBlock_cases (api input options))
    as [(e & -> & ->)|[(m & -> & _ & ->)|(r & Hr & Hn & ->)]]; cbn [fst snd].
  - split; [reflexivity|]. split; [apply le_n|]. split.
    + split; [|done]. intros _. exists e.
      rewrite !elem_of_app, !elem_of_cons. tauto.
    + intros H. exfalso. by apply H.
  - split; [reflexivity|]. split; [apply le_n|]. split.
    + split; [discriminate|]. intros [e He]. exfalso.
      rewrite !elem_of_app, !elem_of_cons, !elem_of_nil in He.
      destruct He as [[He|[He|[He|[]]]]|[[He|[He|[]]]|[[He|[]]|[]]]];
        discriminate He.
    + intros H. exfalso. by apply H.
  - rewrite Hr. cbn [catch_throws].
    split; [reflexivity|]. split; [apply le_n|]. split.
    + split; [discriminate|]. intros [e He]. exfalso.
      rewrite !elem_of_app, !elem_of_cons, !elem_of_nil in He.
      destruct He as [[He|[He|[He|[]]]]|[[He|[]]|[[He|[]]|[]]]];
        discriminate He.
    + intros _. eauto.
Qed.

(** ** config/env.js *)

Lemma strict_equals_string_true (v : value) (s : jsstring) :
  strict_equals_string v s = true <-> v = VStr s.
Proof.
  unfold strict_equals_string. destruct v as [| |b|f|t|m]; try (split; discriminate).
  rewrite bool_decide_eq_true. split; [by intros ->|by intros [= ->]].
Qed.

(** X15: logging is enabled, at level debug, exactly when the environment
    variable NODE_ENV is the string 'development'; in every other case it is
    disabled, at level error.  That includes the case of an unset variable,
    although [ENV_CONFIG.NODE_ENV] then reads 'development'. *)
Theorem env_logging_mode (node_env base_url : value) :
  let cfg := ENV_CONFIG node_env base_url in
  (LOGGING_ENABLED (LOGGING cfg) = true <-> node_env = VStr (u "development")) /\
  (LEVEL (LOGGING cfg) = u "debug" <-> node_env = VStr (u "development")) /\
  (LEVEL (LOGGING cfg) = u "error" <-> node_env <> VStr (u "development")) /\
  (truthy node_env = false ->
     NODE_ENV cfg = VStr (u "development") /\ LOGGING_ENABLED (LOGGING cfg) = false).
Proof.
  cbv zeta. unfold ENV_CONFIG. cbn [LOGGING LOGGING_ENABLED LEVEL NODE_ENV].
  pose proof (strict_equals_string_true node_env (u "development")) as Hs.
  destruct (strict_equals_string node_env (u "development")) eqn:He.
  - assert (node_env = VStr (u "development")) as -> by (by apply Hs).
    split; [done|]. split; [done|]. split.
    + split; [intros H; vm_compute in H; discriminate H|done].
    + intros H. vm_compute in H. discriminate H.
  - assert (node_env <> VStr (u "development")) as Hne.
    { intros H. apply Hs in H. discriminate H. }
    split; [split; [discriminate|done]|].
    split; [split; [intros H; vm_compute in H; discriminate H|done]|].
    split; [done|].
    intros Hf. split; [|done]. unfold js_or. by rewrite Hf.
Qed.

(** X16: the base URL is never falsy: an unset or empty REACT_APP_API_BASE_URL
    gives 'http://localhost:8000', any other value is taken as it is.  The
    client is created with that URL, and [ENV_CONFIG] agrees with
    [API_CONFIG] on it, on the timeout and on the retry count and delay. *)
Theorem base_url_never_empty (node_env base_url : value) :
  truthy (defaults_baseURL (client base_url)) = true /\
  (truthy base_url = false ->
     defaults_baseURL (client base_url) = VStr (u "http://localhost:8000")) /\
  (truthy base_url = true -> defaults_baseURL (client base_url) = base_url) /\
  API_BASE_URL (ENV_CONFIG node_env base_url) = defaults_baseURL (client base_url) /\
  API_TIMEOUT (PERFORMANCE (ENV_CONFIG node_env base_url))
    = defaults_timeout (client base_url) /\
  API_RETRY_COUNT (PERFORMANCE (ENV_CONFIG node_env base_url))
    = maxRetries (retry (API_CONFIG base_url)) /\
  API_RETRY_DELAY (PERFORMANCE (ENV_CONFIG node_env base_url))
    = retryDelay (retry (API_CONFIG base_url)).
Proof.
  unfold client, API_CONFIG, ENV_CONFIG.
  cbn [defaults_baseURL defaults_timeout cfg_baseURL cfg_timeout API_BASE_URL
       PERFORMANCE API_TIMEOUT API_RETRY_COUNT API_RETRY_DELAY retry maxRetries
       retryDelay].
  split; [by apply js_or_truthy|].
  split; [unfold js_or; by intros ->|].
  split; [apply js_or_keep|]. done.
Qed.

(** ** components/Sidebar.js *)

Lemma sidebar_targets (pathname : jsstring) :
  nav_to <$> Sidebar pathname =
    [u "/"; u "/ner"; u "/std"; u "/abbr"; u "/corr"; u "/gen"].
Proof. reflexivity. Qed.

(** X17: at every location the sidebar draws at most one entry as active, and an
    entry is drawn active exactly when its target is the current pathname,
    compared as it is: at a pathname that is none of the six targets (for
    instance '/ner/') no entry is active. *)
Theorem sidebar_active_entry (pathname : jsstring) :
  (forall item, item ∈ Sidebar pathname ->
     (nav_isActive item = true <-> nav_to item = pathname)) /\
  (length (filter (fun item => nav_isActive item = true) (Sidebar pathname)) <= 1)%nat /\
  (pathname ∉ nav_to <$> Sidebar pathname ->
     filter (fun item => nav_isActive item = true) (Sidebar pathname) = []).
Proof.
  split; [|split].
  - intros item. unfold Sidebar. rewrite !elem_of_cons, elem_of_nil.
    intros [->|[->|[->|[->|[->|[->|[]]]]]]]; cbn [nav_isActive nav_to];
      rewrite bool_decide_eq_true; split; congruence.
  - unfold Sidebar.
    destruct (decide (pathname = u "/")) as [->|H1]; [vm_compute; lia|].
    destruct (decide (pathname = u "/ner")) as [->|H2]; [vm_compute; lia|].
    destruct (decide (pathname = u "/std")) as [->|H3]; [vm_compute; lia|].
    destruct (decide (pathname = u "/abbr")) as [->|H4]; [vm_compute; lia|].
    destruct (decide (pathname = u "/corr")) as [->|H5]; [vm_compute; lia|].
    destruct (decide (pathname = u "/gen")) as [->|H6]; [vm_compute; lia|].
    rewrite !bool_decide_eq_false_2 by done. vm_compute. lia.
  - rewrite sidebar_targets, !not_elem_of_cons.
    intros (H1 & H2 & H3 & H4 & H5 & H6 & _). unfold Sidebar.
    rewrite !bool_decide_eq_false_2 by done. vm_compute. reflexivity.
Qed.

(** ** components/shared/ModelOptions.js *)

(** X18: no field of LLMOptions and EmbeddingOptions is ever shown blank: a
    missing or empty option shows its default.  The embedding model field
    shows [options.model]: it does not depend on [options.embeddingModel] at
    all, and given options with a model name it shows that name, the same one
    the field of LLMOptions shows. *)
Theorem embedding_field_shows_model (options : obj) (v : value) :
  truthy (LLMOptions_model options) = true /\
  truthy (EmbeddingOptions_model options) = true /\
  truthy (EmbeddingOptions_dbName options) = true /\
  EmbeddingOptions_model (<[u "embeddingModel" := v]> options)
    = EmbeddingOptions_model options /\
  (forall m, options !! u "model" = Some m -> truthy m = true ->
     EmbeddingOptions_model options = m /\ LLMOptions_model options = m) /\
  (truthy (prop (VObj options) (u "model")) = false ->
     EmbeddingOptions_model options = VStr (u "embedding-3") /\
     LLMOptions_model options = VStr (u "glm-4-plus")).
Proof.
  unfold LLMOptions_model, EmbeddingOptions_model, EmbeddingOptions_dbName.
  split; [by apply js_or_truthy|]. split; [by apply js_or_truthy|].
  split; [by apply js_or_truthy|]. split; [|split].
  - unfold prop. cbn [own_props]. by rewrite lookup_insert_ne by keys_differ.
  - intros m Hm Ht. unfold prop. cbn [own_props]. rewrite Hm. cbn [default].
    by rewrite !js_or_keep.
  - intros Hf. unfold js_or. by rewrite Hf.
Qed.
